(** * Market-Demand-Analysis: aggregation pipeline and city queries

    A shallow embedding of [preprocess.js] (row normalisation, the
    state -> category -> crop aggregation and [finalizeData]) and of the
    query handlers of [server.js] (district projection, city list and
    full city index), with the properties of the specification stated
    and proved over it.

    Modelling choices, valid for the whole file:
    - JavaScript strings are [string] (bytes); [toLowerCase] and [trim]
      act on the ASCII letters and the ASCII white space characters.
    - JavaScript numbers are exact rationals ([Qc]).  IEEE rounding,
      overflow and the literal [Infinity] are outside the model; [NaN]
      is [None] where [parseFloat] can produce it.
    - A JavaScript [Map] is an association list in insertion order
      (module [JsMap]); [Map.set] on a present key keeps its position.
    - [uuidv4()] is a counter threaded through the aggregation state.
    - [new Date().toISOString()] is a clock indexed by the position of
      the state being finalised. *)

From Stdlib Require Import QArith Qcanon String Ascii List Permutation.
From Stdlib Require Import Sorted.
From stdpp Require Import base option list gmap strings numbers.
Import ListNotations.
Open Scope string_scope.
Open Scope list_scope.

(** ** JavaScript string primitives *)

Module Js.

Definition lowerAscii (c : ascii) : ascii :=
  let n := nat_of_ascii c in
  if (65 <=? n)%nat && (n <=? 90)%nat then ascii_of_nat (n + 32) else c.

(** [String.prototype.toLowerCase] *)
Fixpoint toLowerCase (s : string) : string :=
  match s with
  | EmptyString => EmptyString
  | String c r => String (lowerAscii c) (toLowerCase r)
  end.

(** White space as [trim], [\s] and [parseFloat] see it: TAB, LF, VT,
    FF, CR and SPACE. *)
Definition isWhite (c : ascii) : bool :=
  let n := nat_of_ascii c in
  ((9 <=? n)%nat && (n <=? 13)%nat) || (n =? 32)%nat.

Fixpoint trimStart (s : string) : string :=
  match s with
  | EmptyString => EmptyString
  | String c r => if isWhite c then trimStart r else s
  end.

Fixpoint trimEnd (s : string) : string :=
  match s with
  | EmptyString => EmptyString
  | String c r =>
      match trimEnd r with
      | EmptyString => if isWhite c then EmptyString else String c EmptyString
      | r' => String c r'
      end
  end.

(** [String.prototype.trim] *)
Definition trim (s : string) : string := trimEnd (trimStart s).

(** [String.prototype.includes] *)
Fixpoint includes (s sub : string) : bool :=
  String.prefix sub s ||
  match s with
  | EmptyString => false
  | String _ r => includes r sub
  end.

(** [s.replace(/\s+/g, '_')]: every maximal run of white space becomes
    one underscore. *)
Fixpoint replaceWhiteRuns (inRun : bool) (s : string) : string :=
  match s with
  | EmptyString => EmptyString
  | String c r =>
      if isWhite c
      then if inRun then replaceWhiteRuns true r
           else String "_" (replaceWhiteRuns true r)
      else String c (replaceWhiteRuns false r)
  end.

Definition seqb (a b : string) : bool := bool_decide (a = b).

(** A property read or an optional value: [None] is [undefined]/[null]. *)
Definition truthy (v : option string) : bool :=
  match v with
  | Some (String _ _) => true
  | _ => false
  end.

(** [a || b] on string-or-undefined operands. *)
Definition or (a b : option string) : option string :=
  if truthy a then a else b.

(** [a || 'literal'], whose value is always a string. *)
Definition orStr (a : option string) (d : string) : string :=
  match a with
  | Some (String c r) => String c r
  | _ => d
  end.

(** *** [parseFloat]

    Leading white space, an optional sign, decimal digits with an
    optional fraction, an optional exponent; anything after the longest
    such prefix is ignored.  No digit at all gives [NaN] ([None]). *)

Definition digitOf (c : ascii) : option Z :=
  let n := nat_of_ascii c in
  if (48 <=? n)%nat && (n <=? 57)%nat then Some (Z.of_nat (n - 48)) else None.

(** Reads digits; returns the accumulated value, how many were read and
    the rest. *)
Fixpoint readDigits (acc : Z) (cnt : nat) (s : string) : Z * nat * string :=
  match s with
  | EmptyString => (acc, cnt, s)
  | String c r =>
      match digitOf c with
      | Some d => readDigits (10 * acc + d) (S cnt) r
      | None => (acc, cnt, s)
      end
  end.

Definition readSign (s : string) : bool * string :=
  match s with
  | String "-" r => (true, r)
  | String "+" r => (false, r)
  | _ => (false, s)
  end.

(** The exponent part: [e] or [E], optional sign, at least one digit;
    0 when it is absent or malformed. *)
Definition readExponent (s : string) : Z :=
  match s with
  | String c r =>
      if Ascii.eqb c "e" || Ascii.eqb c "E" then
        let '(neg, r1) := readSign r in
        let '(e, n, _) := readDigits 0 0 r1 in
        if (n =? 0)%nat then 0%Z else if neg then (- e)%Z else e
      else 0%Z
  | EmptyString => 0%Z
  end.

Definition scale10 (q : Q) (e : Z) : Q :=
  match e with
  | Z0 => q
  | Zpos p => (q * inject_Z (10 ^ Zpos p))%Q
  | Zneg p => (q / inject_Z (10 ^ Zpos p))%Q
  end.

Definition parseFloat (s : string) : option Qc :=
  let '(neg, s1) := readSign (trimStart s) in
  let '(ip, ni, s2) := readDigits 0 0 s1 in
  let '(fp, nf, s3) :=
    match s2 with
    | String "." r => readDigits 0 0 r
    | _ => (0%Z, 0%nat, s2)
    end in
  if ((ni + nf)%nat =? 0)%nat then None
  else
    let mant := (inject_Z ip + inject_Z fp / inject_Z (10 ^ Z.of_nat nf))%Q in
    let v := scale10 mant (readExponent s3) in
    Some (Q2Qc (if neg then (- v)%Q else v)).

End Js.

(** ** JavaScript [Map]: association list in insertion order *)

Module JsMap.

Section Ops.
Context {V : Type}.

Fixpoint get (k : string) (m : list (string * V)) : option V :=
  match m with
  | [] => None
  | (k', v) :: r => if Js.seqb k k' then Some v else get k r
  end.

Definition has (k : string) (m : list (string * V)) : bool :=
  match get k m with Some _ => true | None => false end.

(** [Map.set]: a present key keeps its place, a new key goes last. *)
Fixpoint set (k : string) (v : V) (m : list (string * V)) : list (string * V) :=
  match m with
  | [] => [(k, v)]
  | (k', v') :: r =>
      if Js.seqb k k' then (k', v) :: r else (k', v') :: set k v r
  end.

Definition keys (m : list (string * V)) : list string := map fst m.
Definition values (m : list (string * V)) : list V := map snd m.
End Ops.

End JsMap.

(** ** Data model (preprocess.js) *)

(** One entry of [regionalSuitability].  [r_state] is its [state] field. *)
Record RegionFact := mkRegionFact {
  geography : string;
  district : string;
  r_state : string;
  suitability : string
}.

(** [categoryId: { _id, name }] *)
Record CategoryRef := mkCategoryRef {
  _id : string;
  cid_name : string
}.

Record Crop := mkCrop {
  cropId : nat;
  cropName : string;
  scientificName : string;
  categoryId : CategoryRef;
  demandQuantity : Qc;
  regionalSuitability : list RegionFact
}.

(** [summary]; [unit_] is its [unit] field. *)
Record Summary := mkSummary {
  totalCategories : nat;
  totalCrops : nat;
  totalDemand : Qc;
  unit_ : string;
  lastUpdated : string
}.

(** A value of [categoriesMap] while the aggregation runs. *)
Record CategoryData := mkCategoryData {
  cd_name : string;
  cd_count : nat;
  cropsMap : list (string * Crop)
}.

(** A value of [stateDataMap] while the aggregation runs. *)
Record StateData := mkStateData {
  sd_state : string;
  categoriesMap : list (string * CategoryData);
  sd_summary : Summary
}.

(** The module-level state of preprocess.js: [stateDataMap] and the
    supply of fresh crop ids. *)
Record Builder := mkBuilder {
  stateDataMap : list (string * StateData);
  nextId : nat
}.

(** A category and a state of the emitted document (demand.json). *)
Record Category := mkCategory {
  name : string;
  count : nat;
  crops : list Crop
}.

Record StateEntry := mkStateEntry {
  state : string;
  categories : list Category;
  summary : Summary
}.

(** A parsed CSV row: header -> cell, every cell a string. *)
Abbreviation Row := (gmap string string).

Definition VALID_CATEGORIES : list string :=
  ["Vegetables"; "Fruits"; "Spices"; "Cereals"; "Pulses"; "Oil Seeds";
   "Oils and Fats"; "Fibre Crops"; "Forest Products"; "Flowers";
   "Dry Fruits"; "Beverages"; "Live Stock"; "Drug and Narcotics"; "Other"].

Definition emptyBuilder : Builder := mkBuilder [] 0.

(** ** Category classification *)

Definition mapCategoryToValid (csvGroup cropName : string) : option string :=
  if negb (Js.truthy (Some csvGroup)) then None else
  let normalizedGroup := Js.trim csvGroup in
  let directMatch :=
    find (fun cat => Js.seqb (Js.toLowerCase normalizedGroup) (Js.toLowerCase cat))
         VALID_CATEGORIES in
  if Js.truthy directMatch then directMatch else
  let normalizedGroupLower := Js.toLowerCase normalizedGroup in
  let isGroup s := Js.seqb normalizedGroupLower s in
  if isGroup "spices" then Some "Spices"
  else if isGroup "cereals" then Some "Cereals"
  else if isGroup "pulses" then Some "Pulses"
  else if isGroup "oil seeds" || isGroup "oilseeds" then Some "Oil Seeds"
  else if isGroup "oils and fats" || isGroup "oil and fats" then Some "Oils and Fats"
  else if isGroup "fibre crops" || isGroup "fiber crops" then Some "Fibre Crops"
  else if isGroup "forest products" then Some "Forest Products"
  else if isGroup "flowers" then Some "Flowers"
  else if isGroup "dry fruits" then Some "Dry Fruits"
  else if isGroup "beverages" then Some "Beverages"
  else if Js.includes normalizedGroupLower "live stock"
          || Js.includes normalizedGroupLower "livestock" then Some "Live Stock"
  else if isGroup "drug and narcotics" || isGroup "drug & narcotics" then Some "Drug and Narcotics"
  else if isGroup "other" then Some "Other"
  else None.

(** ** [processRow]: the fields read from a row *)

Definition rowState (row : Row) : string :=
  Js.trim (Js.orStr (Js.or (row !! "state") (row !! "State Name")) "").

Definition rowCategory (row : Row) : string :=
  Js.trim (Js.orStr (Js.or (row !! "category") (row !! "Group")) "").

Definition rowDistrict (row : Row) : string :=
  Js.trim (Js.orStr (Js.or (row !! "district") (row !! "District Name")) "").

Definition rowCropName (row : Row) (cropNameFromFile : string) : string :=
  Js.orStr (Some cropNameFromFile)
    (Js.trim (Js.orStr (Js.or (row !! "crop_name") (row !! "Variety")) "")).

Definition rowScientificName (row : Row) : string :=
  Js.trim (Js.orStr (Js.or (row !! "scientific_name") (row !! "Scientific Name")) "").

Definition rowDemandQuantityStr (row : Row) : string :=
  Js.orStr (Js.or (Js.or (row !! "demand_quantity") (row !! "Arrivals (Tonnes)"))
                  (row !! "Arrivals")) "0".

(** [parseFloat(demandQuantityStr) || 0]: [NaN] and 0 both give 0. *)
Definition rowDemandQuantity (row : Row) : Qc :=
  match Js.parseFloat (rowDemandQuantityStr row) with
  | Some q => q
  | None => 0%Qc
  end.

Definition rowSuitability (row : Row) : string :=
  Js.trim (Js.orStr (Js.or (row !! "suitability") (row !! "Suitability")) "Medium").

(** The category a row is filed under: the case-insensitive direct match
    first, [mapCategoryToValid] otherwise. *)
Definition rowValidCategory (row : Row) (cropNameFromFile : string) : option string :=
  let category := rowCategory row in
  let categoryLower := Js.trim (Js.toLowerCase category) in
  let directMatch :=
    find (fun cat => Js.seqb (Js.toLowerCase cat) categoryLower) VALID_CATEGORIES in
  if Js.truthy directMatch then directMatch
  else mapCategoryToValid category (rowCropName row cropNameFromFile).

Definition isEmpty (s : string) : bool := negb (Js.truthy (Some s)).

Definition leQc (a b : Qc) : bool := bool_decide (a <= b)%Qc.
Definition ltQc (a b : Qc) : bool := bool_decide (a < b)%Qc.

Definition newStateData (state : string) : StateData :=
  mkStateData state [] (mkSummary 0 0 0%Qc "tons per week" "").

Definition newCategoryData (validCategory : string) : CategoryData :=
  mkCategoryData validCategory 0 [].

Definition newCrop (cropId : nat) (cropName scientificName validCategory : string) : Crop :=
  mkCrop cropId cropName scientificName
    (mkCategoryRef (Js.replaceWhiteRuns false (Js.toLowerCase validCategory)) validCategory)
    0%Qc [].

(** The tail of [processRow]: the crop receives its region fact (unless
    one with the same district and suitability is there) and the
    quantity. *)
Definition mergeIntoCrop (crop : Crop) (stateV districtV suitabilityV : string)
    (quantity : Qc) : Crop :=
  let suitabilityEntry :=
    mkRegionFact "India" districtV stateV (Js.orStr (Some suitabilityV) "Medium") in
  let existingSuitability :=
    existsb (fun s => Js.seqb s.(district) districtV
                      && Js.seqb s.(suitability) suitabilityEntry.(suitability))
            crop.(regionalSuitability) in
  mkCrop crop.(cropId) crop.(cropName) crop.(scientificName) crop.(categoryId)
    (crop.(demandQuantity) + quantity)%Qc
    (if existingSuitability then crop.(regionalSuitability)
     else crop.(regionalSuitability) ++ [suitabilityEntry]).

(** ** [processRow] *)

(** Lines 201-270 of [processRow]: state, category and crop are looked up
    or created, then the crop takes the row.  The objects held by the
    three maps are mutated in place in the source; here the changed crop
    is written back under its key, which keeps every key where it is. *)
Definition storeRow (state validCategory cropName scientificName district suitability : string)
    (demandQuantity : Qc) (st : Builder) : Builder :=
  let stateData :=
    match JsMap.get state st.(stateDataMap) with
    | Some sd => sd
    | None => newStateData state
    end in
  let categoryData :=
    match JsMap.get validCategory stateData.(categoriesMap) with
    | Some cd => cd
    | None => newCategoryData validCategory
    end in
  let cropKey := Js.trim (Js.toLowerCase cropName) in
  let '(crop, nextId') :=
    match JsMap.get cropKey categoryData.(cropsMap) with
    | Some c => (c, st.(nextId))
    | None =>
        (newCrop st.(nextId) cropName scientificName validCategory, S st.(nextId))
    end in
  let crop' := mergeIntoCrop crop state district suitability demandQuantity in
  let categoryData' :=
    mkCategoryData categoryData.(cd_name) categoryData.(cd_count)
      (JsMap.set cropKey crop' categoryData.(cropsMap)) in
  let stateData' :=
    mkStateData stateData.(sd_state)
      (JsMap.set validCategory categoryData' stateData.(categoriesMap))
      stateData.(sd_summary) in
  mkBuilder (JsMap.set state stateData' st.(stateDataMap)) nextId'.

(** Lines 154-199: the fields are read, and the row is dropped when an
    essential one is missing, when the quantity is not positive, or when
    no valid category is found. *)
Definition processRow (row : Row) (cropNameFromFile : string) (st : Builder) : Builder :=
  let state := rowState row in
  let category := rowCategory row in
  let district := rowDistrict row in
  let cropName := rowCropName row cropNameFromFile in
  let scientificName := rowScientificName row in
  let demandQuantity := rowDemandQuantity row in
  let suitability := rowSuitability row in
  if isEmpty state || isEmpty category || isEmpty cropName then st
  else if leQc demandQuantity 0 then st
  else
    let validCategory := rowValidCategory row cropNameFromFile in
    if negb (Js.truthy validCategory)
       || negb (existsb (Js.seqb (Js.orStr validCategory "")) VALID_CATEGORIES)
    then st
    else
      storeRow state (Js.orStr validCategory "") cropName scientificName
        district suitability demandQuantity st.

(** Rows arrive one at a time, each with the crop name of its file. *)
Definition processRows (rows : list (Row * string)) (st : Builder) : Builder :=
  fold_left (fun acc r => processRow r.1 r.2 acc) rows st.

(** ** [finalizeData] *)

Definition sumDemand (acc : Qc) (cs : list Crop) : Qc :=
  fold_left (fun s c => (s + c.(demandQuantity))%Qc) cs acc.

(** One round of [VALID_CATEGORIES.forEach]: the category pushed, and
    the running [totalCrops] and [totalDemand] of the state's summary. *)
Definition finalizeCategory (stateData : StateData)
    (acc : list Category * nat * Qc) (categoryName : string)
    : list Category * nat * Qc :=
  let '(categories, totalCrops, totalDemand) := acc in
  match JsMap.get categoryName stateData.(categoriesMap) with
  | None => (categories ++ [mkCategory categoryName 0 []], totalCrops, totalDemand)
  | Some categoryData =>
      let crops := JsMap.values categoryData.(cropsMap) in
      (categories ++ [mkCategory categoryData.(cd_name) (length crops) crops],
       (totalCrops + length crops)%nat,
       sumDemand totalDemand crops)
  end.

Definition finalizeState (now : string) (stateData : StateData) : StateEntry :=
  let '(categories, totalCrops, totalDemand) :=
    fold_left (finalizeCategory stateData) VALID_CATEGORIES ([], 0%nat, 0%Qc) in
  mkStateEntry stateData.(sd_state) categories
    (mkSummary (length VALID_CATEGORIES) totalCrops totalDemand
       stateData.(sd_summary).(unit_) now).

Definition finalizeData (clock : nat -> string) (st : Builder) : list StateEntry :=
  imap (fun i kv => finalizeState (clock i) kv.2) st.(stateDataMap).

(** The whole run: every row through [processRow], then [finalizeData]. *)
Definition aggregate (clock : nat -> string) (rows : list (Row * string)) : list StateEntry :=
  finalizeData clock (processRows rows emptyBuilder).

(** ** server.js: responses and loading *)

(** What a handler sends: a JSON body with status 200, or an error
    status with its [error] and [message] strings.  The handlers' [catch]
    branches (status 500) are unreachable on data of the document's
    shape and are not modelled. *)
Inductive Response (A : Type) : Type :=
| Ok (body : A)
| Failure (status : nat) (error message : string).
Arguments Ok {A} body.
Arguments Failure {A} status error message.

Definition badRequest {A} : Response A :=
  Failure 400 "City name is required" "Please provide a valid city/district name".

Definition dataNotAvailable {A} : Response A :=
  Failure 503 "Data not available"
    "Demand data has not been loaded. Please run preprocess.js first.".

Definition noDataFound {A} (cityName : string) : Response A :=
  Failure 404 "No data found"
    ("No crop demand data found for city/district: " +:+ cityName).

(** What [loadDemandData] finds on disk. *)
Inductive DemandFile :=
| FileMissing
| FileUnreadable
| FileParsed (content : option (list StateEntry)).

(** The value of [demandData] after [loadDemandData]: [None] is [null]
    (the JSON document [null]); a missing or unreadable file gives the
    empty array. *)
Definition loadDemandData (f : DemandFile) : option (list StateEntry) :=
  match f with
  | FileMissing => Some []
  | FileUnreadable => Some []
  | FileParsed content => content
  end.

(** [!demandData || demandData.length === 0] *)
Definition dataUnavailable (demandData : option (list StateEntry)) : bool :=
  match demandData with
  | None => true
  | Some d => (length d =? 0)%nat
  end.

(** Summary of a state in a response, and of a whole response or city. *)
Record GroupSummary := mkGroupSummary {
  g_totalCategories : nat;
  g_totalCrops : nat;
  g_totalDemand : Qc;
  g_unit : string
}.

Record TopSummary := mkTopSummary {
  t_totalStates : nat;
  t_totalCategories : nat;
  t_totalCrops : nat;
  t_totalDemand : Qc;
  t_unit : string
}.

(** ** GET /api/demand/city/:cityName *)

Record StateResult := mkStateResult {
  sr_state : string;
  sr_categories : list Category;
  sr_summary : GroupSummary
}.

Record CityResult := mkCityResult {
  city : string;
  filters : string * string;
  note : string;
  data : list StateResult;
  cr_summary : TopSummary
}.

(** [filter && x.toLowerCase() !== filter.toLowerCase()] *)
Definition filteredOut (filter : option string) (x : string) : bool :=
  Js.truthy filter
  && negb (Js.seqb (Js.toLowerCase x) (Js.toLowerCase (Js.orStr filter ""))).

(** The predicate of [some] and of [find] over [regionalSuitability]. *)
Definition regionMatches (cityName : string) (stateData : StateEntry)
    (region : RegionFact) : bool :=
  Js.seqb (Js.toLowerCase region.(district)) (Js.toLowerCase cityName)
  && Js.seqb (Js.toLowerCase region.(r_state)) (Js.toLowerCase stateData.(state)).

Definition cropMatches (cityName : string) (stateData : StateEntry) (crop : Crop) : bool :=
  existsb (regionMatches cityName stateData) crop.(regionalSuitability).

(** The record [matchingCrops.map] builds for one crop. *)
Definition cityCrop (cityName : string) (stateData : StateEntry) (crop : Crop) : Crop :=
  let cityRegion := find (regionMatches cityName stateData) crop.(regionalSuitability) in
  mkCrop crop.(cropId) crop.(cropName) crop.(scientificName) crop.(categoryId)
    crop.(demandQuantity)
    (match cityRegion with Some r => [r] | None => [] end).

(** One round of [stateData.categories.forEach]: the category pushed to
    [stateResult.categories], if any. *)
Definition projectCategory (cityName : string) (categoryFilter : option string)
    (stateData : StateEntry) (category : Category) : option Category :=
  if filteredOut categoryFilter category.(name) then None
  else
    let matchingCrops := List.filter (cropMatches cityName stateData) category.(crops) in
    if (0 <? length matchingCrops)%nat then
      let cityCrops := map (cityCrop cityName stateData) matchingCrops in
      Some (mkCategory category.(name) (length cityCrops) cityCrops)
    else None.

(** One round of [demandData.forEach]: the state pushed to [result.data],
    if any. *)
Definition projectState (cityName : string) (stateFilter categoryFilter : option string)
    (stateData : StateEntry) : option StateResult :=
  if filteredOut stateFilter stateData.(state) then None
  else
    let cats := omap (projectCategory cityName categoryFilter stateData)
                     stateData.(categories) in
    if (0 <? length cats)%nat then
      let totalCrops := fold_left (fun sum cat => (sum + cat.(count))%nat) cats 0%nat in
      let totalDemand :=
        fold_left (fun sum cat => (sum + sumDemand 0 cat.(crops))%Qc) cats 0%Qc in
      Some (mkStateResult stateData.(state) cats
              (mkGroupSummary (length cats) totalCrops totalDemand "tons per week"))
    else None.

(** A query-string value, trimmed when present: [q ? q.trim() : null]. *)
Definition queryFilter (q : option string) : option string :=
  if Js.truthy q then Some (Js.trim (Js.orStr q "")) else None.

(** The handler.  [state.summary?.x || 0] is [x]: every state pushed to
    [result.data] carries its summary. *)
Definition cityHandler (demandData : option (list StateEntry))
    (cityNameParam : string) (stateQuery categoryQuery : option string)
    : Response CityResult :=
  let cityName := Js.trim cityNameParam in
  let stateFilter := queryFilter stateQuery in
  let categoryFilter := queryFilter categoryQuery in
  if isEmpty cityName then badRequest
  else if dataUnavailable demandData then dataNotAvailable
  else
    let states := omap (projectState cityName stateFilter categoryFilter)
                       (default [] demandData) in
    let overallTotalCrops :=
      fold_left (fun sum st => (sum + st.(sr_summary).(g_totalCrops))%nat) states 0%nat in
    let overallTotalDemand :=
      fold_left (fun sum st => (sum + st.(sr_summary).(g_totalDemand))%Qc) states 0%Qc in
    let overallCategories :=
      fold_left (fun sum st => (sum + st.(sr_summary).(g_totalCategories))%nat) states 0%nat in
    if (length states =? 0)%nat then noDataFound cityName
    else
      Ok (mkCityResult cityName
            (Js.orStr stateFilter "all", Js.orStr categoryFilter "all")
            "demandQuantity represents the total demand for this crop across all districts in the state, not just this city"
            states
            (mkTopSummary (length states) overallCategories overallTotalCrops
               overallTotalDemand "tons per week")).

(** ** JavaScript [Set] of strings and [Array.prototype.sort] *)

(** [Set.add] on a set kept in insertion order; [size] is [length]. *)
Definition setAdd (x : string) (s : list string) : list string :=
  if existsb (Js.seqb x) s then s else s ++ [x].

Section Sorting.
Context {A : Type} (cmp : A -> A -> comparison).

Fixpoint insertSorted (x : A) (l : list A) : list A :=
  match l with
  | [] => [x]
  | y :: r =>
      match cmp x y with
      | Gt => y :: insertSorted x r
      | _ => x :: y :: r
      end
  end.

(** [arr.sort(cmp)]: a stable sort. *)
Definition sortBy (l : list A) : list A := fold_right insertSorted [] l.
End Sorting.

(** ** GET /api/demand/cities *)

Record CitiesList := mkCitiesList {
  cl_totalCities : nat;
  cl_cities : list string
}.

Definition collectDistricts (demandData : list StateEntry) : list string :=
  fold_left (fun set stateData =>
    fold_left (fun set category =>
      fold_left (fun set crop =>
        fold_left (fun set region =>
          if Js.truthy (Some region.(district)) then setAdd region.(district) set
          else set)
        crop.(regionalSuitability) set)
      category.(crops) set)
    stateData.(categories) set)
  demandData [].

(** [Array.from(citiesSet).sort()] orders by code units. *)
Definition citiesHandler (demandData : option (list StateEntry)) : Response CitiesList :=
  if dataUnavailable demandData then dataNotAvailable
  else
    let cities := sortBy String.compare (collectDistricts (default [] demandData)) in
    Ok (mkCitiesList (length cities) cities).

(** ** GET /api/demand/all-cities *)

(** The values of the three nested maps built by the handler. *)
Record CityCategoryData := mkCityCategoryData {
  ccd_name : string;
  ccd_crops : list Crop
}.

Record CityStateData := mkCityStateData {
  csd_state : string;
  csd_categories : list (string * CityCategoryData)
}.

Record CityData := mkCityData {
  cyd_city : string;
  cyd_states : list (string * CityStateData)
}.

(** The entries of the response. *)
Record CityCategory := mkCityCategory {
  cc_name : string;
  cc_count : nat;
  cc_totalDemand : Qc;
  cc_crops : list Crop
}.

Record CityState := mkCityState {
  cs_state : string;
  cs_categories : list CityCategory;
  cs_summary : GroupSummary
}.

Record CityEntry := mkCityEntry {
  ce_city : string;
  ce_states : list CityState;
  ce_summary : TopSummary
}.

Record AllCities := mkAllCities {
  ac_totalCities : nat;
  ac_cities : list CityEntry
}.

(** [existingCrop.regionalSuitability.push(region)] on the crop [find]
    returned: the first one with that id. *)
Fixpoint pushRegionToFirst (id : nat) (region : RegionFact) (cs : list Crop) : list Crop :=
  match cs with
  | [] => []
  | c :: r =>
      if (c.(cropId) =? id)%nat
      then mkCrop c.(cropId) c.(cropName) c.(scientificName) c.(categoryId)
             c.(demandQuantity) (c.(regionalSuitability) ++ [region]) :: r
      else c :: pushRegionToFirst id region r
  end.

(** The body of [crop.regionalSuitability.forEach].  City, state and
    category entries are looked up or created (also for a crop without
    demand), changed and written back under their keys. *)
Definition visitRegion (category : Category) (crop : Crop)
    (citiesMap : list (string * CityData)) (region : RegionFact)
    : list (string * CityData) :=
  let cityName := region.(district) in
  let stateName := region.(r_state) in
  if isEmpty cityName then citiesMap
  else
    let cityData := default (mkCityData cityName []) (JsMap.get cityName citiesMap) in
    let stateDataForCity :=
      default (mkCityStateData stateName [])
              (JsMap.get stateName cityData.(cyd_states)) in
    let categoryData :=
      default (mkCityCategoryData category.(name) [])
              (JsMap.get category.(name) stateDataForCity.(csd_categories)) in
    let existingCrop :=
      find (fun c => (c.(cropId) =? crop.(cropId))%nat) categoryData.(ccd_crops) in
    let crops' :=
      if ltQc 0 crop.(demandQuantity) then
        match existingCrop with
        | None =>
            categoryData.(ccd_crops)
            ++ [mkCrop crop.(cropId) crop.(cropName) crop.(scientificName)
                  crop.(categoryId) crop.(demandQuantity) [region]]
        | Some ec =>
            let regionExists :=
              existsb (fun r => Js.seqb r.(district) region.(district)
                                && Js.seqb r.(r_state) region.(r_state))
                      ec.(regionalSuitability) in
            if regionExists then categoryData.(ccd_crops)
            else pushRegionToFirst crop.(cropId) region categoryData.(ccd_crops)
        end
      else categoryData.(ccd_crops) in
    let categoryData' := mkCityCategoryData categoryData.(ccd_name) crops' in
    let stateDataForCity' :=
      mkCityStateData stateDataForCity.(csd_state)
        (JsMap.set category.(name) categoryData' stateDataForCity.(csd_categories)) in
    let cityData' :=
      mkCityData cityData.(cyd_city)
        (JsMap.set stateName stateDataForCity' cityData.(cyd_states)) in
    JsMap.set cityName cityData' citiesMap.

Definition buildCitiesMap (demandData : list StateEntry) : list (string * CityData) :=
  fold_left (fun m stateData =>
    fold_left (fun m category =>
      fold_left (fun m crop =>
        fold_left (visitRegion category crop) crop.(regionalSuitability) m)
      category.(crops) m)
    stateData.(categories) m)
  demandData [].

Definition cityCategoryEntry (kv : string * CityCategoryData) : option CityCategory :=
  let validCrops := List.filter (fun crop => ltQc 0 crop.(demandQuantity)) kv.2.(ccd_crops) in
  if (0 <? length validCrops)%nat
  then Some (mkCityCategory kv.1 (length validCrops) (sumDemand 0 validCrops) validCrops)
  else None.

Definition cityStateEntry (kv : string * CityStateData) : option CityState :=
  let cats := omap cityCategoryEntry kv.2.(csd_categories) in
  if (0 <? length cats)%nat then
    let totalCrops := fold_left (fun sum cat => (sum + cat.(cc_count))%nat) cats 0%nat in
    let totalDemand := fold_left (fun sum cat => (sum + cat.(cc_totalDemand))%Qc) cats 0%Qc in
    Some (mkCityState kv.1 cats
            (mkGroupSummary (length cats) totalCrops totalDemand "tons per week"))
  else None.

(** The names added to [cityTotalCategories]. *)
Definition cityCategorySet (states : list CityState) : list string :=
  fold_left (fun set st =>
    fold_left (fun set cat => setAdd cat.(cc_name) set) st.(cs_categories) set)
  states [].

Definition cityEntry (kv : string * CityData) : option CityEntry :=
  let states := omap cityStateEntry kv.2.(cyd_states) in
  if (0 <? length states)%nat then
    let cityTotalCrops :=
      fold_left (fun sum st => (sum + st.(cs_summary).(g_totalCrops))%nat) states 0%nat in
    let cityTotalDemand :=
      fold_left (fun sum st => (sum + st.(cs_summary).(g_totalDemand))%Qc) states 0%Qc in
    let cityTotalCategories := cityCategorySet states in
    Some (mkCityEntry kv.1 states
            (mkTopSummary (length states) (length cityTotalCategories)
               cityTotalCrops cityTotalDemand "tons per week"))
  else None.

Section AllCities.
(** [String.prototype.localeCompare] depends on the host's locale; the
    handler is modelled for any such comparison. *)
Variable localeCompare : string -> string -> comparison.

Definition allCitiesHandler (demandData : option (list StateEntry)) : Response AllCities :=
  if dataUnavailable demandData then dataNotAvailable
  else
    let citiesMap := buildCitiesMap (default [] demandData) in
    let cities := omap cityEntry citiesMap in
    Ok (mkAllCities (length citiesMap)
          (sortBy (fun a b => localeCompare a.(ce_city) b.(ce_city)) cities)).
End AllCities.

(** ** Specification-level notions *)

(** The key a crop is filed under inside its category. *)
Definition cropKeyOf (cropName : string) : string := Js.trim (Js.toLowerCase cropName).

(** The canonical record of a row that [processRow] keeps. *)
Record Canonical := mkCanonical {
  c_state : string;
  c_category : string;
  c_cropName : string;
  c_scientificName : string;
  c_district : string;
  c_quantity : Qc;
  c_suitability : string
}.

(** The guard of [processRow] as a function: [None] for a dropped row. *)
Definition normalize (row : Row) (cropNameFromFile : string) : option Canonical :=
  if isEmpty (rowState row) || isEmpty (rowCategory row)
     || isEmpty (rowCropName row cropNameFromFile) then None
  else if leQc (rowDemandQuantity row) 0 then None
  else
    let validCategory := rowValidCategory row cropNameFromFile in
    if negb (Js.truthy validCategory)
       || negb (existsb (Js.seqb (Js.orStr validCategory "")) VALID_CATEGORIES)
    then None
    else Some (mkCanonical (rowState row) (Js.orStr validCategory "")
                 (rowCropName row cropNameFromFile) (rowScientificName row)
                 (rowDistrict row) (rowDemandQuantity row) (rowSuitability row)).

Definition storeCanonical (r : Canonical) (st : Builder) : Builder :=
  storeRow r.(c_state) r.(c_category) r.(c_cropName) r.(c_scientificName)
    r.(c_district) r.(c_suitability) r.(c_quantity) st.

(** A crop is identified by its state, its category and its key. *)
Definition Group : Type := string * string * string.

Definition groupOf (r : Canonical) : Group :=
  (r.(c_state), r.(c_category), cropKeyOf r.(c_cropName)).

(** The records of the accepted rows, in input order. *)
Definition acceptedRecords (rows : list (Row * string)) : list Canonical :=
  omap (fun r => normalize r.1 r.2) rows.

(** The accepted records that merge into the crop of group [g]. *)
Definition recordsOf (g : Group) (rows : list (Row * string)) : list Canonical :=
  List.filter (fun r => bool_decide (groupOf r = g)) (acceptedRecords rows).

Definition sumQc (l : list Qc) : Qc := fold_right Qcplus 0%Qc l.

Definition quantityOf (rs : list Canonical) : Qc := sumQc (map c_quantity rs).

(** The crop of a group in the aggregation state, if there is one. *)
Definition cropAt (st : Builder) (g : Group) : option Crop :=
  match JsMap.get g.1.1 st.(stateDataMap) with
  | None => None
  | Some sd =>
      match JsMap.get g.1.2 sd.(categoriesMap) with
      | None => None
      | Some cd => JsMap.get g.2 cd.(cropsMap)
      end
  end.

(** The crop a record is merged into: the one already at its group, or
    a new one carrying the next id. *)
Definition cropBefore (r : Canonical) (st : Builder) : Crop :=
  default (newCrop st.(nextId) r.(c_cropName) r.(c_scientificName) r.(c_category))
          (cropAt st (groupOf r)).

Definition cropAfter (r : Canonical) (st : Builder) : Crop :=
  mergeIntoCrop (cropBefore r st) r.(c_state) r.(c_district) r.(c_suitability)
    r.(c_quantity).

(** The total demand carried by a snapshot. *)
Definition cropsDemand (cs : list Crop) : Qc := sumQc (map demandQuantity cs).

Definition categoriesDemand (cats : list Category) : Qc :=
  sumQc (map (fun cat => cropsDemand cat.(crops)) cats).

Definition snapshotDemand (snap : list StateEntry) : Qc :=
  sumQc (map (fun se => categoriesDemand se.(categories)) snap).

(** The fact a record adds to its crop. *)
Definition factOf (r : Canonical) : RegionFact :=
  mkRegionFact "India" r.(c_district) r.(c_state)
    (Js.orStr (Some r.(c_suitability)) "Medium").

(** The identity of a region fact inside a crop. *)
Definition factKey (f : RegionFact) : string * string :=
  (f.(district), f.(suitability)).

(** The keys of every map of the aggregation state are distinct, and the
    values agree with the keys they are stored under. *)
Definition cropsKeyed (cd : CategoryData) : Prop :=
  NoDup (JsMap.keys cd.(cropsMap))
  /\ forall k crop, JsMap.get k cd.(cropsMap) = Some crop -> cropKeyOf crop.(cropName) = k.

Definition categoriesKeyed (sd : StateData) : Prop :=
  NoDup (JsMap.keys sd.(categoriesMap))
  /\ forall c cd, JsMap.get c sd.(categoriesMap) = Some cd ->
       cd.(cd_name) = c /\ cropsKeyed cd.

Definition builderKeyed (st : Builder) : Prop :=
  NoDup (JsMap.keys st.(stateDataMap))
  /\ forall s sd, JsMap.get s st.(stateDataMap) = Some sd ->
       sd.(sd_state) = s /\ categoriesKeyed sd.

(** The demand and the region facts recorded for a group. *)
Definition demandAt (st : Builder) (g : Group) : Qc :=
  match cropAt st g with
  | Some c => c.(demandQuantity)
  | None => 0%Qc
  end.

Definition regionsAt (st : Builder) (g : Group) : list RegionFact :=
  match cropAt st g with
  | Some c => c.(regionalSuitability)
  | None => []
  end.

(** Every fact of a stored crop names the crop's own state. *)
Definition factsScoped (st : Builder) : Prop :=
  forall g c f, cropAt st g = Some c -> In f c.(regionalSuitability) ->
    f.(geography) = "India" /\ f.(r_state) = g.1.1.

(** The category [finalizeData] emits for a name of [VALID_CATEGORIES]. *)
Definition finalCategory (stateData : StateData) (categoryName : string) : Category :=
  match JsMap.get categoryName stateData.(categoriesMap) with
  | None => mkCategory categoryName 0 []
  | Some categoryData =>
      mkCategory categoryData.(cd_name)
        (length (JsMap.values categoryData.(cropsMap)))
        (JsMap.values categoryData.(cropsMap))
  end.




(** ** Specification-level notions for the queries *)

(** A filter lets a name through: no filter, or the same name up to
    case. *)
Definition passes (filter : option string) (x : string) : Prop :=
  Js.truthy filter = true ->
  Js.toLowerCase x = Js.toLowerCase (Js.orStr filter "").

(** A crop is retained for a district within a state: one of its facts
    has that district and that state, both up to case. *)
Definition districtMatch (cityName : string) (se : StateEntry) (crop : Crop) : Prop :=
  exists region, In region crop.(regionalSuitability)
    /\ Js.toLowerCase region.(district) = Js.toLowerCase cityName
    /\ Js.toLowerCase region.(r_state) = Js.toLowerCase se.(state).



(** Every region fact of the snapshot records the state it is filed
    under (what [processRow] writes). *)
Definition regionsScoped (snap : list StateEntry) : bool :=
  forallb (fun se =>
    forallb (fun cat =>
      forallb (fun crop =>
        forallb (fun region => Js.seqb region.(r_state) se.(state))
                crop.(regionalSuitability))
      cat.(crops))
    se.(categories))
  snap.



(** ** Alias resolution *)

(** The first alias whose cell is a non-empty string, as [||] picks it. *)
Definition firstNonEmpty (aliases : list (option string)) : option string :=
  hd None (List.filter Js.truthy aliases).

(** The first alias whose cell is not blank: the reading under which a
    white-space-only cell gives way to the next alias. *)
Definition firstNonBlank (aliases : list (option string)) : option string :=
  hd None (List.filter (fun v => Js.truthy (Js.trim <$> v)) aliases).

(** ** The full city index *)

(** Every category name under a city, state after state. *)
Definition cityCategoryNames (states : list CityState) : list string :=
  flat_map (fun st => map cc_name st.(cs_categories)) states.

(** ** Reordering the input *)

(** The category reference every crop of a category carries. *)
Definition refOf (validCategory : string) : CategoryRef :=
  mkCategoryRef (Js.replaceWhiteRuns false (Js.toLowerCase validCategory)) validCategory.

Definition refsKept (st : Builder) : Prop :=
  forall g crop, cropAt st g = Some crop -> crop.(categoryId) = refOf g.1.2.






(** ** Example inputs *)

(** *** The scenario of the specification

    Two rows of the file [Tomato.csv] for Karnataka, one for Bangalore
    and one for Mysore. *)
Module Scenario.

Definition row (state category district quantity suitability : string) : Row :=
  list_to_map [("state", state); ("category", category); ("district", district);
               ("demand_quantity", quantity); ("suitability", suitability)].

Definition bangalore : Row := row "Karnataka" "Vegetables" "Bangalore" "100" "High".
Definition mysore : Row := row "Karnataka" "Vegetables" "Mysore" "50" "Medium".

Definition rows : list (Row * string) := [(bangalore, "Tomato"); (mysore, "Tomato")].

Definition clock (i : nat) : string := "2024-01-15T10:30:00.000Z".

Definition snapshot : list StateEntry := aggregate clock rows.

Definition noCategory : Category := mkCategory "" 0 [].
Definition noCrop : Crop := mkCrop 0 "" "" (mkCategoryRef "" "") 0%Qc [].
Definition noState : StateEntry :=
  mkStateEntry "" [] (mkSummary 0 0 0%Qc "" "").

(** The only state of the snapshot, its first category and its crop. *)
Definition karnataka : StateEntry := nth 0 snapshot noState.
Definition vegetables : Category := nth 0 karnataka.(categories) noCategory.
Definition fruits : Category := nth 1 karnataka.(categories) noCategory.
Definition tomato : Crop := nth 0 vegetables.(crops) noCrop.

End Scenario.

(** A row whose [state] cell is three spaces and whose [State Name] cell
    is filled. *)
Definition blankStateRow : Row :=
  list_to_map [("state", "   "); ("State Name", "Karnataka");
               ("category", "Vegetables"); ("district", "Bangalore");
               ("demand_quantity", "100"); ("suitability", "High")].

(** Bangalore recorded under two states, both with Vegetables. *)
Module TwoStates.

Definition kerala : Row := Scenario.row "Kerala" "Vegetables" "Bangalore" "7" "Low".

Definition rows : list (Row * string) :=
  [(Scenario.bangalore, "Tomato"); (Scenario.mysore, "Tomato"); (kerala, "Okra")].

Definition snapshot : list StateEntry := aggregate Scenario.clock rows.

Definition index : list CityEntry :=
  match allCitiesHandler String.compare (Some snapshot) with
  | Ok r => r.(ac_cities)
  | Failure _ _ _ => []
  end.

Definition noCity : CityEntry := mkCityEntry "" [] (mkTopSummary 0 0 0 0%Qc "").

Definition bangalore : CityEntry := nth 0 index noCity.

End TwoStates.

(** The same rows in two orders.  [upperFirst]/[lowerFirst]: two files
    whose names differ in case only, one row each.  [namedFirst]/
    [unnamedFirst]: two rows of one file, one of them with a scientific
    name. *)
Module Reordered.



Definition named : Row :=
  <["scientific_name" := "Solanum lycopersicum"]> Scenario.bangalore.

Definition namedFirst : list (Row * string) :=
  [(named, "Tomato"); (Scenario.mysore, "Tomato")].


End Reordered.

(** ** Further notions: the document as a whole *)

(** The distinct elements of a list in order of first appearance. *)
Definition firstSeen (l : list string) : list string :=
  fold_left (fun acc x => setAdd x acc) l [].




(** What a crop keeps from its creation on. *)
Definition identityOf (c : Crop) : nat * string * string * CategoryRef :=
  (c.(cropId), c.(cropName), c.(scientificName), c.(categoryId)).


(** ** GET /health *)



(** ** Further notions for the queries *)

(** The HTTP status of a response. *)
Definition statusOf {A} (resp : Response A) : nat :=
  match resp with
  | Ok _ => 200
  | Failure status _ _ => status
  end.

(** The part of a projection that does not echo the request. *)
Definition payloadOf (resp : Response CityResult)
    : option (list StateResult * TopSummary) :=
  match resp with
  | Ok r => Some (r.(data), r.(cr_summary))
  | Failure _ _ _ => None
  end.

(** Every district recorded in a snapshot, fact after fact. *)
Definition allDistricts (demandData : list StateEntry) : list string :=
  flat_map (fun se =>
    flat_map (fun cat =>
      flat_map (fun crop => map district crop.(regionalSuitability)) cat.(crops))
    se.(categories))
  demandData.

(** Ascending for a comparison: no element is greater than its
    successor. *)
Definition ascending {A} (cmp : A -> A -> comparison) (l : list A) : Prop :=
  Sorted (fun a b => cmp a b <> Gt) l.

(** ** Further notions for the full city index *)

(** The crops gathered for a city under a state: distinct ids, positive
    demand, and facts of that city and state only. *)
Definition cropsIndexed (cityName stateName : string) (cs : list Crop) : Prop :=
  NoDup (map cropId cs)
  /\ forall crop, In crop cs ->
       (0 < crop.(demandQuantity))%Qc
       /\ crop.(regionalSuitability) <> []
       /\ forall region, In region crop.(regionalSuitability) ->
            region.(district) = cityName /\ region.(r_state) = stateName.

Definition categoryIndexed (cityName stateName categoryName : string)
    (cc : CityCategoryData) : Prop :=
  cc.(ccd_name) = categoryName /\ cropsIndexed cityName stateName cc.(ccd_crops).

Definition stateIndexed (cityName stateName : string) (sd : CityStateData) : Prop :=
  sd.(csd_state) = stateName
  /\ NoDup (JsMap.keys sd.(csd_categories))
  /\ forall cn cc, In (cn, cc) sd.(csd_categories) ->
       categoryIndexed cityName stateName cn cc.

Definition cityIndexed (cityName : string) (cd : CityData) : Prop :=
  cd.(cyd_city) = cityName
  /\ NoDup (JsMap.keys cd.(cyd_states))
  /\ forall sn sd, In (sn, sd) cd.(cyd_states) -> stateIndexed cityName sn sd.

Definition citiesIndexed (m : list (string * CityData)) : Prop :=
  forall cityName cd, In (cityName, cd) m -> cityIndexed cityName cd.

(** ** Lemmas on the JavaScript primitives *)

Lemma seqb_eq (a b : string) : Js.seqb a b = true <-> a = b.
Proof. unfold Js.seqb. apply bool_decide_eq_true. Qed.

Lemma seqb_neq (a b : string) : Js.seqb a b = false <-> a <> b.
Proof. unfold Js.seqb. apply bool_decide_eq_false. Qed.

Lemma seqb_refl (a : string) : Js.seqb a a = true.
Proof. by apply seqb_eq. Qed.

Lemma isEmpty_true (s : string) : isEmpty s = true <-> s = "".
Proof. destruct s; unfold isEmpty; simpl; split; intros H; congruence. Qed.


Lemma leQc_false (a b : Qc) : leQc a b = false <-> (b < a)%Qc.
Proof.
  unfold leQc. rewrite bool_decide_eq_false. split.
  - apply Qcnot_le_lt.
  - apply Qclt_not_le.
Qed.

(** ** Lemmas on [JsMap] *)

Section JsMapFacts.
Context {V : Type}.
Implicit Types (m : list (string * V)) (k : string) (v : V).

Lemma get_set_eq k v m : JsMap.get k (JsMap.set k v m) = Some v.
Proof.
  induction m as [|[k' v'] m IH]; simpl.
  - by rewrite seqb_refl.
  - destruct (Js.seqb k k') eqn:E; simpl; rewrite E; [done | exact IH].
Qed.

Lemma get_set_ne k k' v m :
  k <> k' -> JsMap.get k' (JsMap.set k v m) = JsMap.get k' m.
Proof.
  intros Hne. induction m as [|[k0 v0] m IH]; simpl.
  - assert (Js.seqb k' k = false) as -> by (apply seqb_neq; congruence). done.
  - destruct (Js.seqb k k0) eqn:E; simpl.
    + apply seqb_eq in E. subst k0.
      assert (Js.seqb k' k = false) as -> by (apply seqb_neq; congruence). done.
    + by rewrite IH.
Qed.

Lemma get_set k k' v m :
  JsMap.get k' (JsMap.set k v m) = if Js.seqb k k' then Some v else JsMap.get k' m.
Proof.
  destruct (Js.seqb k k') eqn:E.
  - apply seqb_eq in E. subst. apply get_set_eq.
  - apply seqb_neq in E. by apply get_set_ne.
Qed.

Lemma get_None_keys k m : JsMap.get k m = None <-> ~ In k (JsMap.keys m).
Proof.
  induction m as [|[k' v'] m IH]; simpl.
  - split; [tauto | done].
  - destruct (Js.seqb k k') eqn:E.
    + apply seqb_eq in E. subst. split; [done | intros H; exfalso; apply H; by left].
    + apply seqb_neq in E. rewrite IH. split.
      * intros H [H1 | H1]; [congruence | tauto].
      * intros H H1. apply H. by right.
Qed.

Lemma get_In k v m : JsMap.get k m = Some v -> In (k, v) m.
Proof.
  induction m as [|[k' v'] m IH]; simpl; [done |].
  destruct (Js.seqb k k') eqn:E.
  - apply seqb_eq in E. subst. intros [= ->]. by left.
  - intros H. right. by apply IH.
Qed.

Lemma In_get k v m : NoDup (JsMap.keys m) -> In (k, v) m -> JsMap.get k m = Some v.
Proof.
  induction m as [|[k' v'] m IH]; simpl; [done |].
  intros Hnd Hin. apply list.NoDup_cons in Hnd as [Hk Hnd]. destruct Hin as [[= -> ->] | Hin].
  - by rewrite seqb_refl.
  - destruct (Js.seqb k k') eqn:E.
    + apply seqb_eq in E. subst. exfalso. apply Hk.
      apply list_elem_of_In. change k' with (fst (k', v)). by apply in_map.
    + by apply IH.
Qed.

Lemma keys_set k v m :
  JsMap.keys (JsMap.set k v m)
  = if JsMap.has k m then JsMap.keys m else JsMap.keys m ++ [k].
Proof.
  unfold JsMap.has. induction m as [|[k' v'] m IH]; simpl; [done |].
  destruct (Js.seqb k k') eqn:E; simpl; [done |].
  rewrite IH. by destruct (JsMap.get k m).
Qed.

Lemma NoDup_keys_set k v m :
  NoDup (JsMap.keys m) -> NoDup (JsMap.keys (JsMap.set k v m)).
Proof.
  intros Hnd. rewrite keys_set. unfold JsMap.has.
  destruct (JsMap.get k m) eqn:E; [done |].
  apply list.NoDup_app. split_and!; [done | | apply NoDup_singleton].
  intros x Hx Hx'. apply list_elem_of_singleton in Hx'. subst x.
  apply get_None_keys in E. apply E. by apply list_elem_of_In.
Qed.

(** A property of every binding survives [set] when the new binding
    has it. *)
Lemma get_set_forall (P : string -> V -> Prop) k v m :
  (forall k' v', JsMap.get k' m = Some v' -> P k' v') ->
  P k v ->
  forall k' v', JsMap.get k' (JsMap.set k v m) = Some v' -> P k' v'.
Proof.
  intros Hall Hnew k' v'. rewrite get_set.
  destruct (Js.seqb k k') eqn:E.
  - apply seqb_eq in E. subst. by intros [= <-].
  - apply Hall.
Qed.

End JsMapFacts.

(** ** The aggregation step *)

Lemma processRow_normalize row file st :
  processRow row file st
  = match normalize row file with
    | None => st
    | Some r => storeCanonical r st
    end.
Proof.
  unfold processRow, normalize, storeCanonical.
  destruct (isEmpty (rowState row) || isEmpty (rowCategory row)
            || isEmpty (rowCropName row file)); [done |].
  destruct (leQc (rowDemandQuantity row) 0); [done |].
  destruct (negb (Js.truthy (rowValidCategory row file))
            || negb (existsb (Js.seqb (Js.orStr (rowValidCategory row file) ""))
                       VALID_CATEGORIES)); done.
Qed.

Lemma processRows_cons row rows st :
  processRows (row :: rows) st = processRows rows (processRow row.1 row.2 st).
Proof. done. Qed.

(** What every kept record preserves, the whole run preserves. *)
Lemma processRows_preserves (P : Builder -> Prop) :
  (forall r st, P st -> P (storeCanonical r st)) ->
  forall rows st, P st -> P (processRows rows st).
Proof.
  intros Hstep rows. induction rows as [|row rows IH]; intros st H; [done |].
  rewrite processRows_cons. apply IH. rewrite processRow_normalize.
  destruct (normalize row.1 row.2); [by apply Hstep | done].
Qed.

Lemma cropAt_empty g : cropAt emptyBuilder g = None.
Proof. done. Qed.

(** The record's own group now holds the merged crop. *)
Lemma cropAt_store_same r st :
  cropAt (storeCanonical r st) (groupOf r) = Some (cropAfter r st).
Proof.
  unfold cropAfter, cropBefore, cropAt, storeCanonical, storeRow, groupOf, cropKeyOf.
  simpl.
  destruct (JsMap.get (c_state r) (stateDataMap st)) as [sd|] eqn:Es; simpl;
    [destruct (JsMap.get (c_category r) (categoriesMap sd)) as [cd|] eqn:Ec; simpl;
     [destruct (JsMap.get _ (cropsMap cd)) as [c|] eqn:Ek; simpl |] |];
    repeat first [rewrite get_set_eq | rewrite seqb_refl | progress simpl]; done.
Qed.

(** Every other group keeps its crop. *)
Lemma cropAt_store_other r st g :
  groupOf r <> g -> cropAt (storeCanonical r st) g = cropAt st g.
Proof.
  destruct g as [[s c] k]. unfold groupOf, cropKeyOf. intros Hne.
  unfold cropAt, storeCanonical, storeRow. simpl.
  set (key := Js.trim (Js.toLowerCase (c_cropName r))) in *.
  destruct (JsMap.get (c_state r) (stateDataMap st)) as [sd|] eqn:Es; simpl.
  - destruct (JsMap.get (c_category r) (categoriesMap sd)) as [cd|] eqn:Ec; simpl.
    + destruct (JsMap.get key (cropsMap cd)) as [crop|] eqn:Ek; simpl;
        rewrite get_set; (destruct (Js.seqb (c_state r) s) eqn:E1; [|done]);
        apply seqb_eq in E1; subst s; rewrite Es; simpl;
        rewrite get_set; (destruct (Js.seqb (c_category r) c) eqn:E2; [|done]);
        apply seqb_eq in E2; subst c; rewrite Ec; simpl;
        rewrite get_set; (destruct (Js.seqb key k) eqn:E3; [|done]);
        apply seqb_eq in E3; subst k; done.
    + rewrite get_set. destruct (Js.seqb (c_state r) s) eqn:E1; [|done].
      apply seqb_eq in E1. subst s. rewrite Es. simpl.
      rewrite get_set. destruct (Js.seqb (c_category r) c) eqn:E2; [|done].
      apply seqb_eq in E2. subst c. rewrite Ec. simpl.
      destruct (Js.seqb k key) eqn:E3; [|done].
      apply seqb_eq in E3. subst k. done.
  - rewrite get_set. destruct (Js.seqb (c_state r) s) eqn:E1; [|done].
    apply seqb_eq in E1. subst s. rewrite Es. simpl.
    destruct (Js.seqb c (c_category r)) eqn:E2; [|done].
    apply seqb_eq in E2. subst c. simpl.
    destruct (Js.seqb k key) eqn:E3; [|done].
    apply seqb_eq in E3. subst k. done.
Qed.

Lemma cropAt_store r st g :
  cropAt (storeCanonical r st) g
  = if bool_decide (groupOf r = g) then Some (cropAfter r st) else cropAt st g.
Proof.
  case_bool_decide as H.
  - subst g. apply cropAt_store_same.
  - by apply cropAt_store_other.
Qed.

(** *** The keys stay distinct and agree with the values *)

Lemma builderKeyed_empty : builderKeyed emptyBuilder.
Proof. split; [apply NoDup_nil_2 | done]. Qed.

Lemma builderKeyed_store r st :
  builderKeyed st -> builderKeyed (storeCanonical r st).
Proof.
  intros [Hnd Hall]. unfold storeCanonical, storeRow.
  set (key := Js.trim (Js.toLowerCase (c_cropName r))).
  set (sd := match JsMap.get (c_state r) (stateDataMap st) with
             | Some sd => sd | None => newStateData (c_state r) end).
  set (cd := match JsMap.get (c_category r) (categoriesMap sd) with
             | Some cd => cd | None => newCategoryData (c_category r) end).
  assert (Hsd : sd_state sd = c_state r /\ categoriesKeyed sd).
  { subst sd. destruct (JsMap.get (c_state r) (stateDataMap st)) eqn:E.
    - by apply Hall.
    - split; [done |]. split; [apply NoDup_nil_2 | done]. }
  destruct Hsd as [Hsn [Hcnd Hcall]].
  assert (Hcd : cd_name cd = c_category r /\ cropsKeyed cd).
  { subst cd. destruct (JsMap.get (c_category r) (categoriesMap sd)) eqn:E.
    - by apply Hcall.
    - split; [done |]. split; [apply NoDup_nil_2 | done]. }
  destruct Hcd as [Hcn [Hknd Hkall]].
  destruct (JsMap.get key (cropsMap cd)) as [crop|] eqn:Ek; simpl.
  - split; simpl; [by apply NoDup_keys_set |].
    apply get_set_forall; [exact Hall |]. simpl. split; [done |].
    split; simpl; [by apply NoDup_keys_set |].
    apply get_set_forall; [exact Hcall |]. simpl. split; [done |].
    split; simpl; [by apply NoDup_keys_set |].
    apply get_set_forall; [exact Hkall |]. simpl. by apply Hkall.
  - split; simpl; [by apply NoDup_keys_set |].
    apply get_set_forall; [exact Hall |]. simpl. split; [done |].
    split; simpl; [by apply NoDup_keys_set |].
    apply get_set_forall; [exact Hcall |]. simpl. split; [done |].
    split; simpl; [by apply NoDup_keys_set |].
    apply get_set_forall; [exact Hkall |]. done.
Qed.

Lemma builderKeyed_processRows rows st :
  builderKeyed st -> builderKeyed (processRows rows st).
Proof. apply processRows_preserves, builderKeyed_store. Qed.

(** *** Demand of a group *)

Lemma demandAt_store r st g :
  demandAt (storeCanonical r st) g
  = (demandAt st g + (if bool_decide (groupOf r = g) then r.(c_quantity) else 0))%Qc.
Proof.
  unfold demandAt. rewrite cropAt_store. case_bool_decide as H; [| ring].
  subst g. unfold cropAfter, cropBefore, mergeIntoCrop. simpl.
  destruct (cropAt st (groupOf r)); simpl; ring.
Qed.

Lemma acceptedRecords_cons row rows :
  acceptedRecords (row :: rows)
  = match normalize row.1 row.2 with
    | Some r => r :: acceptedRecords rows
    | None => acceptedRecords rows
    end.
Proof. unfold acceptedRecords. simpl. by destruct (normalize row.1 row.2). Qed.

Lemma recordsOf_cons g row rows :
  recordsOf g (row :: rows)
  = match normalize row.1 row.2 with
    | Some r => if bool_decide (groupOf r = g) then r :: recordsOf g rows
                else recordsOf g rows
    | None => recordsOf g rows
    end.
Proof.
  unfold recordsOf. rewrite acceptedRecords_cons.
  destruct (normalize row.1 row.2); [simpl | done].
  by case_bool_decide.
Qed.

Lemma demandAt_processRows rows st g :
  demandAt (processRows rows st) g
  = (demandAt st g + quantityOf (recordsOf g rows))%Qc.
Proof.
  revert st. induction rows as [|row rows IH]; intros st.
  - unfold quantityOf, recordsOf. simpl. ring.
  - rewrite processRows_cons, IH, processRow_normalize, recordsOf_cons.
    destruct (normalize row.1 row.2) as [r|]; [| done].
    rewrite demandAt_store. case_bool_decide; [| ring].
    unfold quantityOf. simpl. ring.
Qed.

(** *** Region facts of a group *)

Lemma sameKey_factOf r (s : RegionFact) :
  Js.seqb s.(district) r.(c_district)
  && Js.seqb s.(suitability) (Js.orStr (Some r.(c_suitability)) "Medium") = true
  <-> factKey s = factKey (factOf r).
Proof.
  unfold factKey, factOf. simpl. rewrite andb_true_iff, !seqb_eq.
  split; [intros [-> ->]; done | intros [= -> ->]; done].
Qed.

Lemma regions_cropAfter r st :
  regionalSuitability (cropAfter r st)
  = if existsb (fun s => bool_decide (factKey s = factKey (factOf r)))
         (regionsAt st (groupOf r))
    then regionsAt st (groupOf r)
    else regionsAt st (groupOf r) ++ [factOf r].
Proof.
  unfold cropAfter, cropBefore, mergeIntoCrop, regionsAt. simpl.
  assert (Hext : forall l,
    existsb (fun s => Js.seqb (district s) (c_district r)
                      && Js.seqb (suitability s)
                           (Js.orStr (Some (c_suitability r)) "Medium")) l
    = existsb (fun s => bool_decide (factKey s = factKey (factOf r))) l).
  { intros l. induction l as [|s l IH]; cbn [existsb]; [done |]. rewrite IH. f_equal.
    apply eq_true_iff_eq. rewrite sameKey_factOf. by rewrite bool_decide_eq_true. }
  rewrite Hext. by destruct (cropAt st (groupOf r)).
Qed.

Lemma factsScoped_empty : factsScoped emptyBuilder.
Proof. intros g c f H. by rewrite cropAt_empty in H. Qed.

Lemma factsScoped_store r st :
  factsScoped st -> factsScoped (storeCanonical r st).
Proof.
  intros Hsc g c f. rewrite cropAt_store. case_bool_decide as Hg.
  - intros [= <-]. rewrite regions_cropAfter. subst g.
    assert (Hold : forall f, In f (regionsAt st (groupOf r)) ->
              geography f = "India" /\ r_state f = (groupOf r).1.1).
    { intros f'. unfold regionsAt.
      destruct (cropAt st (groupOf r)) eqn:E; [| done]. by apply Hsc. }
    destruct (existsb _ _); [apply Hold |].
    rewrite in_app_iff. intros [H | [<- | []]]; [by apply Hold | done].
  - apply Hsc.
Qed.

Lemma factsScoped_processRows rows st :
  factsScoped st -> factsScoped (processRows rows st).
Proof. apply processRows_preserves, factsScoped_store. Qed.

(** A fact is determined by its key among the facts of one state. *)
Lemma fact_eq_of_key (f f' : RegionFact) :
  geography f = geography f' -> r_state f = r_state f' ->
  factKey f = factKey f' -> f = f'.
Proof.
  destruct f, f'. unfold factKey. simpl. intros -> -> [= -> ->]. done.
Qed.

Lemma regionsAt_store r st g f :
  factsScoped st ->
  In f (regionsAt (storeCanonical r st) g)
  <-> In f (regionsAt st g) \/ (groupOf r = g /\ f = factOf r).
Proof.
  intros Hsc. unfold regionsAt at 1. rewrite cropAt_store.
  case_bool_decide as Hg.
  - subst g. rewrite regions_cropAfter.
    destruct (existsb _ _) eqn:E.
    + split; [by left |]. intros [H | [_ ->]]; [done |].
      apply existsb_exists in E as (f' & Hin & Hk). apply bool_decide_eq_true in Hk.
      assert (f' = factOf r) as <-; [| done].
      unfold regionsAt in Hin. destruct (cropAt st (groupOf r)) eqn:Ec; [| done].
      destruct (Hsc _ _ _ Ec Hin) as [Hgeo Hst].
      apply fact_eq_of_key; done.
    + rewrite in_app_iff. simpl. split.
      * intros [H | [<- | []]]; [by left | by right].
      * intros [H | [_ ->]]; [by left | right; by left].
  - fold (regionsAt st g). split; [by left |]. intros [H | [H _]]; done.
Qed.

Lemma regionsAt_processRows rows st g f :
  factsScoped st ->
  In f (regionsAt (processRows rows st) g)
  <-> In f (regionsAt st g) \/ exists r, In r (recordsOf g rows) /\ f = factOf r.
Proof.
  revert st. induction rows as [|row rows IH]; intros st Hsc.
  - split; [by left |]. intros [H | (r & [] & _)]. done.
  - rewrite processRows_cons, processRow_normalize, recordsOf_cons.
    destruct (normalize row.1 row.2) as [r|].
    + rewrite IH by (by apply factsScoped_store). rewrite regionsAt_store by done.
      case_bool_decide as Hg.
      * split.
        -- intros [[H | [_ ->]] | (r' & Hin & ->)];
             [by left | right; exists r; split; [by left | done]
             | right; exists r'; split; [by right | done]].
        -- intros [H | (r' & [<- | Hin] & ->)];
             [left; by left | left; right; done | right; by exists r'].
      * split.
        -- intros [[H | [H _]] | H]; [by left | done | by right].
        -- intros [H | H]; [left; by left | by right].
    + by apply IH.
Qed.

(** No two facts of a crop share a key. *)
Lemma NoDup_regions_store r st g :
  NoDup (map factKey (regionsAt st g)) ->
  NoDup (map factKey (regionsAt (storeCanonical r st) g)).
Proof.
  intros Hnd. unfold regionsAt at 1. rewrite cropAt_store.
  case_bool_decide as Hg; [| exact Hnd].
  subst g. rewrite regions_cropAfter.
  destruct (existsb _ _) eqn:E; [exact Hnd |].
  rewrite map_app. apply list.NoDup_app. split_and!; [done | | apply NoDup_singleton].
  intros k Hk Hk'. apply list_elem_of_singleton in Hk'. subst k.
  apply list_elem_of_In, in_map_iff in Hk as (f' & Hkey & Hin).
  assert (existsb (fun s => bool_decide (factKey s = factKey (factOf r)))
            (regionsAt st (groupOf r)) = true); [| congruence].
  apply existsb_exists. exists f'. split; [done |]. by apply bool_decide_eq_true.
Qed.

Lemma NoDup_regions_processRows rows st g :
  NoDup (map factKey (regionsAt st g)) ->
  NoDup (map factKey (regionsAt (processRows rows st) g)).
Proof.
  apply (processRows_preserves (fun st => NoDup (map factKey (regionsAt st g)))).
  intros r st'. apply NoDup_regions_store.
Qed.

(** ** The shape of the emitted document *)

Lemma fold_finalizeCategory_categories sd l acc :
  (fold_left (finalizeCategory sd) l acc).1.1 = acc.1.1 ++ map (finalCategory sd) l.
Proof.
  revert acc. induction l as [|c l IH]; intros [[cats n] q]; simpl.
  - by rewrite app_nil_r.
  - rewrite IH. unfold finalCategory.
    destruct (JsMap.get c (categoriesMap sd)); simpl; by rewrite <- app_assoc.
Qed.

Lemma finalizeState_categories now sd :
  categories (finalizeState now sd) = map (finalCategory sd) VALID_CATEGORIES.
Proof.
  unfold finalizeState.
  pose proof (fold_finalizeCategory_categories sd VALID_CATEGORIES ([], 0%nat, 0%Qc)) as H.
  destruct (fold_left (finalizeCategory sd) VALID_CATEGORIES ([], 0%nat, 0%Qc))
    as [[cats n] q]. simpl in *. done.
Qed.

Lemma finalizeState_state now sd : state (finalizeState now sd) = sd_state sd.
Proof.
  unfold finalizeState.
  by destruct (fold_left (finalizeCategory sd) VALID_CATEGORIES ([], 0%nat, 0%Qc))
    as [[cats n] q].
Qed.

Lemma In_finalizeData clock st se :
  In se (finalizeData clock st) ->
  exists i s sd, In (s, sd) st.(stateDataMap) /\ se = finalizeState (clock i) sd.
Proof.
  unfold finalizeData. intros H. apply list_elem_of_In, elem_of_lookup_imap_1 in H.
  destruct H as (i & [s sd] & -> & Hl). exists i, s, sd. split; [| done].
  apply list_elem_of_In. by eapply list_elem_of_lookup_2.
Qed.

Lemma VALID_CATEGORIES_NoDup : NoDup VALID_CATEGORIES.
Proof. apply (bool_decide_unpack _). by vm_compute. Qed.

(** Each crop of the document is the crop stored for its group. *)
Lemma snapshot_crop_at clock st se cat crop :
  builderKeyed st ->
  In se (finalizeData clock st) -> In cat se.(categories) -> In crop cat.(crops) ->
  In cat.(name) VALID_CATEGORIES
  /\ cropAt st (se.(state), cat.(name), cropKeyOf crop.(cropName)) = Some crop.
Proof.
  intros [Hnd Hall] Hse Hcat Hcrop.
  apply In_finalizeData in Hse as (i & s & sd & Hin & ->).
  apply In_get in Hin; [| done]. destruct (Hall _ _ Hin) as [Hs [Hcnd Hcall]].
  rewrite finalizeState_categories in Hcat. rewrite finalizeState_state, Hs.
  apply in_map_iff in Hcat as (c & <- & Hc). unfold finalCategory in *.
  destruct (JsMap.get c (categoriesMap sd)) as [cd|] eqn:Ec; simpl in *; [| done].
  destruct (Hcall _ _ Ec) as [Hn [Hknd Hkall]]. rewrite Hn. split; [done |].
  unfold JsMap.values in Hcrop. apply in_map_iff in Hcrop as ([k crop'] & Heq & Hk).
  simpl in Heq. subst crop'. apply In_get in Hk; [| done].
  unfold cropAt. simpl. rewrite Hin, Ec. rewrite (Hkall _ _ Hk). done.
Qed.

(** *** Total demand *)





Lemma normalize_valid row file r :
  normalize row file = Some r ->
  In r.(c_category) VALID_CATEGORIES /\ (0 < r.(c_quantity))%Qc
  /\ r.(c_state) <> "" /\ r.(c_cropName) <> "".
Proof.
  unfold normalize. intros H.
  destruct (isEmpty (rowState row)) eqn:E1; [done |].
  destruct (isEmpty (rowCategory row)) eqn:E2; [done |].
  destruct (isEmpty (rowCropName row file)) eqn:E3; [done |].
  cbn [orb] in H.
  destruct (leQc (rowDemandQuantity row) 0) eqn:E4; [done |].
  destruct (Js.truthy (rowValidCategory row file)) eqn:E5; [| done].
  destruct (existsb (Js.seqb (Js.orStr (rowValidCategory row file) ""))
              VALID_CATEGORIES) eqn:E6; [| done].
  cbn [negb orb] in H. injection H as <-. cbn [c_category c_quantity c_state c_cropName].
  split_and!.
  - apply existsb_exists in E6 as (c & Hc & Heq). apply seqb_eq in Heq. by subst.
  - by apply leQc_false.
  - intros H. apply isEmpty_true in H. congruence.
  - intros H. apply isEmpty_true in H. congruence.
Qed.


(** A group holds a crop exactly when it held one before or a record of
    the group arrived. *)
Lemma cropAt_processRows_Some rows st g :
  is_Some (cropAt (processRows rows st) g)
  <-> is_Some (cropAt st g) \/ recordsOf g rows <> [].
Proof.
  revert st. induction rows as [|row rows IH]; intros st.
  - split; [by left | intros [H | H]; done].
  - rewrite processRows_cons, IH, processRow_normalize, recordsOf_cons.
    destruct (normalize row.1 row.2) as [r|]; [| done].
    rewrite cropAt_store. case_bool_decide as Hg.
    + split; [intros _; by right | intros _; left; by eexists].
    + done.
Qed.

(** ** Properties of the aggregation *)

Lemma aggregate_crop_at clock rows se cat crop :
  In se (aggregate clock rows) -> In cat se.(categories) -> In crop cat.(crops) ->
  In cat.(name) VALID_CATEGORIES
  /\ cropAt (processRows rows emptyBuilder)
       (se.(state), cat.(name), cropKeyOf crop.(cropName)) = Some crop.
Proof.
  apply snapshot_crop_at, builderKeyed_processRows, builderKeyed_empty.
Qed.


(** C3 -- completeness.  Every state of a produced snapshot lists
    exactly the names of VALID_CATEGORIES, in that order; every category
    has count = number of its crops; and a category no accepted row of
    that state was filed under has count 0 and no crops. *)
Theorem completeness_invariant (clock : nat -> string) (rows : list (Row * string))
    (se : StateEntry) :
  In se (aggregate clock rows) ->
  map name se.(categories) = VALID_CATEGORIES
  /\ forall cat, In cat se.(categories) ->
       cat.(count) = length cat.(crops)
       /\ ((forall r, In r (acceptedRecords rows) ->
              ~ (r.(c_state) = se.(state) /\ r.(c_category) = cat.(name))) ->
           cat.(count) = 0%nat /\ cat.(crops) = []).
Proof.
  intros Hse.
  assert (Hk : builderKeyed (processRows rows emptyBuilder))
    by apply builderKeyed_processRows, builderKeyed_empty.
  pose proof Hse as Hse'.
  apply In_finalizeData in Hse' as (i & s & sd & Hin & Heq).
  destruct Hk as [Hnd Hall]. apply In_get in Hin; [| done].
  destruct (Hall _ _ Hin) as [Hs [Hcnd Hcall]].
  assert (Hcount : forall cat, In cat (categories se) -> count cat = length (crops cat)).
  { intros cat Hcat. subst se. rewrite finalizeState_categories in Hcat.
    apply in_map_iff in Hcat as (c & <- & Hc). unfold finalCategory.
    by destruct (JsMap.get c (categoriesMap sd)). }
  split.
  - subst se. rewrite finalizeState_categories, map_map.
    rewrite <- (map_id VALID_CATEGORIES) at 2. apply map_ext.
    intros c. unfold finalCategory.
    destruct (JsMap.get c (categoriesMap sd)) as [cd|] eqn:Ec; [| done].
    simpl. by apply Hcall.
  - intros cat Hcat. split; [by apply Hcount |]. intros Hnone.
    assert (crops cat = []) as Hnil.
    { destruct (crops cat) as [|crop l] eqn:Ecrops; [done |]. exfalso.
      assert (Hcrop : In crop (crops cat)) by (rewrite Ecrops; by left).
      destruct (aggregate_crop_at _ _ _ _ _ Hse Hcat Hcrop) as [_ Hat].
      assert (Hsome : is_Some (cropAt (processRows rows emptyBuilder)
                (state se, name cat, cropKeyOf (cropName crop)))) by (by eexists).
      apply cropAt_processRows_Some in Hsome as [[? Hsome] | Hrec]; [done |].
      destruct (recordsOf _ rows) as [|r l'] eqn:Er; [done |].
      assert (Hr : In r (recordsOf (state se, name cat, cropKeyOf (cropName crop)) rows))
        by (rewrite Er; by left).
      unfold recordsOf in Hr. apply filter_In in Hr as [Hr Hg].
      apply bool_decide_eq_true in Hg. unfold groupOf in Hg.
      apply (Hnone r Hr). by injection Hg as -> -> _. }
    split; [| done]. rewrite (Hcount cat Hcat), Hnil. done.
Qed.

Lemma completeness_invariant_witness :
  map name Scenario.karnataka.(categories) = VALID_CATEGORIES
  /\ Scenario.vegetables.(count) = 1%nat
  /\ Scenario.fruits.(count) = 0%nat /\ Scenario.fruits.(crops) = [].
Proof.
  destruct (completeness_invariant Scenario.clock Scenario.rows Scenario.karnataka)
    as [Hnames Hcats].
  - vm_compute. left. reflexivity.
  - split; [exact Hnames |]. split.
    + destruct (Hcats Scenario.vegetables) as [Hc _].
      * vm_compute. left. reflexivity.
      * rewrite Hc. reflexivity.
    + destruct (Hcats Scenario.fruits) as [_ Hempty].
      * vm_compute. right. left. reflexivity.
      * apply Hempty. intros r Hr [_ Hcat].
        assert (Hveg : c_category r = "Vegetables").
        { vm_compute in Hr. destruct Hr as [<- | [<- | []]]; reflexivity. }
        rewrite Hveg in Hcat. vm_compute in Hcat. discriminate Hcat.
Defined.

(** C4 -- region dedup.  In every crop of every snapshot no two region
    facts have the same (district, suitability); the fact of every row
    merged into the crop is present, so two merged rows with the same
    district and different suitability leave two distinct facts. *)
Theorem region_dedup (clock : nat -> string) (rows : list (Row * string))
    (se : StateEntry) (cat : Category) (crop : Crop) :
  In se (aggregate clock rows) -> In cat se.(categories) -> In crop cat.(crops) ->
  NoDup (map factKey crop.(regionalSuitability))
  /\ (forall r,
        In r (recordsOf (se.(state), cat.(name), cropKeyOf crop.(cropName)) rows) ->
        In (factOf r) crop.(regionalSuitability))
  /\ (forall r1 r2,
        In r1 (recordsOf (se.(state), cat.(name), cropKeyOf crop.(cropName)) rows) ->
        In r2 (recordsOf (se.(state), cat.(name), cropKeyOf crop.(cropName)) rows) ->
        r1.(c_district) = r2.(c_district) ->
        (factOf r1).(suitability) <> (factOf r2).(suitability) ->
        In (factOf r1) crop.(regionalSuitability)
        /\ In (factOf r2) crop.(regionalSuitability)
        /\ factOf r1 <> factOf r2).
Proof.
  intros Hse Hcat Hcrop.
  destruct (aggregate_crop_at _ _ _ _ _ Hse Hcat Hcrop) as [_ Hat].
  set (g := (state se, name cat, cropKeyOf (cropName crop))) in *.
  assert (Hreg : regionsAt (processRows rows emptyBuilder) g = regionalSuitability crop)
    by (unfold regionsAt; by rewrite Hat).
  assert (Hall : forall r, In r (recordsOf g rows) ->
            In (factOf r) (regionalSuitability crop)).
  { intros r Hr. rewrite <- Hreg.
    apply regionsAt_processRows; [apply factsScoped_empty |]. right. by exists r. }
  split_and!.
  - rewrite <- Hreg. apply NoDup_regions_processRows. simpl. apply NoDup_nil_2.
  - exact Hall.
  - intros r1 r2 H1 H2 _ Hne. split_and!; [by apply Hall | by apply Hall |].
    intros Heq. apply Hne. by rewrite Heq.
Qed.

Lemma region_dedup_witness :
  NoDup (map factKey Scenario.tomato.(regionalSuitability))
  /\ map factKey Scenario.tomato.(regionalSuitability)
     = [("Bangalore", "High"); ("Mysore", "Medium")].
Proof.
  destruct (region_dedup Scenario.clock Scenario.rows
              Scenario.karnataka Scenario.vegetables Scenario.tomato)
    as [Hnd _].
  - vm_compute. left. reflexivity.
  - vm_compute. left. reflexivity.
  - vm_compute. left. reflexivity.
  - split; [exact Hnd | reflexivity].
Defined.

(** ** Rejected rows *)

Lemma valid_of_existsb c :
  existsb (Js.seqb c) VALID_CATEGORIES = true -> In c VALID_CATEGORIES /\ c <> "".
Proof.
  intros H. apply existsb_exists in H as (c' & Hin & Heq).
  apply seqb_eq in Heq. subst c'. split; [done |].
  intros ->. revert Hin. vm_compute. intuition discriminate.
Qed.

Lemma find_valid (p : string -> bool) c :
  find p VALID_CATEGORIES = Some c -> In c VALID_CATEGORIES /\ c <> "".
Proof.
  intros H. apply find_some in H as [Hin _]. apply valid_of_existsb.
  apply existsb_exists. exists c. split; [done | apply seqb_refl].
Qed.


Lemma mapCategoryToValid_valid csvGroup cropName c :
  mapCategoryToValid csvGroup cropName = Some c -> In c VALID_CATEGORIES /\ c <> "".
Proof.
  unfold mapCategoryToValid. cbv zeta.
  destruct (negb (Js.truthy (Some csvGroup))); [done |].
  match goal with |- (if Js.truthy ?d then _ else _) = _ -> _ =>
    destruct (Js.truthy d) eqn:Ed; [apply find_valid |] end.
  repeat match goal with
         | |- (if ?b then _ else _) = Some _ -> _ => destruct b
         end;
    first [ intros [= <-]; apply valid_of_existsb; vm_compute; reflexivity
          | done ].
Qed.






(** ** The district projection *)

Lemma filteredOut_false filter x : filteredOut filter x = false <-> passes filter x.
Proof.
  unfold filteredOut, passes. destruct (Js.truthy filter); simpl.
  - rewrite negb_false_iff, seqb_eq. split; [by intros H _ | by intros H; apply H].
  - split; [by intros _ H | done].
Qed.

Lemma regionMatches_true cityName se region :
  regionMatches cityName se region = true
  <-> Js.toLowerCase region.(district) = Js.toLowerCase cityName
      /\ Js.toLowerCase region.(r_state) = Js.toLowerCase se.(state).
Proof. unfold regionMatches. by rewrite andb_true_iff, !seqb_eq. Qed.

Lemma cropMatches_true cityName se crop :
  cropMatches cityName se crop = true <-> districtMatch cityName se crop.
Proof.
  unfold cropMatches, districtMatch. rewrite existsb_exists.
  split; intros (region & Hin & H); exists region; (split; [done |]);
    by apply regionMatches_true.
Qed.

Lemma projectCategory_Some cityName cf se cat cat' :
  projectCategory cityName cf se cat = Some cat'
  <-> passes cf cat.(name)
      /\ (exists crop, In crop cat.(crops) /\ districtMatch cityName se crop)
      /\ cat' = mkCategory cat.(name)
                  (length (List.filter (cropMatches cityName se) cat.(crops)))
                  (map (cityCrop cityName se)
                       (List.filter (cropMatches cityName se) cat.(crops))).
Proof.
  unfold projectCategory. rewrite <- filteredOut_false.
  destruct (filteredOut cf (name cat)); [split; [done | by intros [? _]] |].
  destruct (List.filter (cropMatches cityName se) (crops cat)) as [|c l] eqn:Ef; simpl.
  - split; [done |]. intros (_ & (crop & Hin & Hm) & _). exfalso.
    apply cropMatches_true in Hm.
    assert (In crop (List.filter (cropMatches cityName se) (crops cat)))
      by (by apply filter_In).
    by rewrite Ef in *.
  - rewrite length_map. split.
    + intros [= <-]. split_and!; [done | | done].
      exists c. assert (Hc : In c (List.filter (cropMatches cityName se) (crops cat)))
        by (rewrite Ef; by left).
      apply filter_In in Hc as [Hin Hm]. split; [done | by apply cropMatches_true].
    + by intros (_ & _ & ->).
Qed.

Lemma projectState_Some cityName sf cf se sr :
  projectState cityName sf cf se = Some sr
  -> passes sf se.(state)
     /\ sr.(sr_state) = se.(state)
     /\ sr.(sr_categories) = omap (projectCategory cityName cf se) se.(categories)
     /\ sr.(sr_categories) <> [].
Proof.
  unfold projectState. rewrite <- filteredOut_false.
  destruct (filteredOut sf (state se)); [done |].
  destruct (omap (projectCategory cityName cf se) (categories se)) as [|c l] eqn:E;
    simpl; [done |].
  intros [= <-]. simpl. done.
Qed.



Lemma cityHandler_Ok demandData cityNameParam sq cq r :
  cityHandler demandData cityNameParam sq cq = Ok r ->
  Js.trim cityNameParam <> ""
  /\ r.(data) <> []
  /\ r.(data) = omap (projectState (Js.trim cityNameParam) (queryFilter sq)
                        (queryFilter cq)) (default [] demandData).
Proof.
  unfold cityHandler.
  destruct (isEmpty (Js.trim cityNameParam)) eqn:E1; [done |].
  destruct (dataUnavailable demandData); [done |].
  destruct (omap _ (default [] demandData)) as [|sr l] eqn:E; simpl; [done |].
  intros [= <-]. simpl. split_and!; [| done | done].
  intros H. apply isEmpty_true in H. congruence.
Qed.




(** C10 -- snapshot unavailable.  When nothing was loaded, and equally
    when a snapshot with zero states was loaded, the city list and the
    full city index answer 503, and so does the district projection for
    every non-blank district; a missing file and an empty document leave
    the same [demandData]. *)
Theorem unavailable_snapshot (localeCompare : string -> string -> comparison)
    (f : DemandFile) :
  loadDemandData f = None \/ loadDemandData f = Some [] ->
  citiesHandler (loadDemandData f) = dataNotAvailable
  /\ allCitiesHandler localeCompare (loadDemandData f) = dataNotAvailable
  /\ (forall cityNameParam stateQuery categoryQuery,
        Js.trim cityNameParam <> "" ->
        cityHandler (loadDemandData f) cityNameParam stateQuery categoryQuery
        = dataNotAvailable)
  /\ loadDemandData FileMissing = loadDemandData (FileParsed (Some []))
  /\ loadDemandData FileUnreadable = loadDemandData (FileParsed (Some [])).
Proof.
  intros Hd.
  assert (Hu : dataUnavailable (loadDemandData f) = true)
    by (destruct Hd as [-> | ->]; done).
  split_and!; [| | | done | done].
  - unfold citiesHandler. by rewrite Hu.
  - unfold allCitiesHandler. by rewrite Hu.
  - intros city sq cq Hcity. unfold cityHandler. rewrite Hu.
    destruct (isEmpty (Js.trim city)) eqn:E; [| done].
    by apply isEmpty_true in E.
Qed.

Lemma unavailable_snapshot_witness :
  citiesHandler (Some []) = dataNotAvailable
  /\ allCitiesHandler String.compare (Some []) = dataNotAvailable
  /\ cityHandler (Some []) "Hyderabad" None None = dataNotAvailable.
Proof.
  destruct (unavailable_snapshot String.compare (FileParsed (Some [])))
    as (H1 & H2 & H3 & _).
  - right. reflexivity.
  - split; [exact H1 |]. split; [exact H2 |].
    apply (H3 "Hyderabad" None None). vm_compute. discriminate.
Defined.

(** *** The record emitted for a selected crop *)


Lemma find_ext_in {A} (p q : A -> bool) (l : list A) :
  (forall x, In x l -> p x = q x) -> find p l = find q l.
Proof.
  induction l as [|a l IH]; simpl; [done |]. intros H.
  rewrite (H a) by (by left). rewrite IH; [done |]. intros x Hx. apply H. by right.
Qed.





Lemma aggregate_regionsScoped clock rows : regionsScoped (aggregate clock rows) = true.
Proof.
  unfold regionsScoped.
  apply forallb_forall. intros se Hse. apply forallb_forall. intros cat Hcat.
  apply forallb_forall. intros crop Hcrop. apply forallb_forall. intros region Hr.
  apply seqb_eq.
  destruct (aggregate_crop_at _ _ _ _ _ Hse Hcat Hcrop) as [_ Hat].
  pose proof (factsScoped_processRows rows emptyBuilder factsScoped_empty _ _ _ Hat Hr)
    as [_ H].
  exact H.
Qed.

(** ** Alias resolution *)

Lemma orStr_or a b d : Js.orStr (Js.or a b) d = Js.orStr (firstNonEmpty [a; b]) d.
Proof. by destruct a as [[|? ?]|], b as [[|? ?]|]. Qed.

Lemma orStr_or3 a b c d :
  Js.orStr (Js.or (Js.or a b) c) d = Js.orStr (firstNonEmpty [a; b; c]) d.
Proof. by destruct a as [[|? ?]|], b as [[|? ?]|], c as [[|? ?]|]. Qed.

(** C8, as stated, fails: with a white-space-only [state] cell the
    normalizer does not take the [State Name] cell; the state is empty
    and the row is dropped. *)
Lemma alias_blank_first_counterexample :
  Js.trim (Js.orStr (firstNonBlank [blankStateRow !! "state";
                                    blankStateRow !! "State Name"]) "")
  = "Karnataka"
  /\ rowState blankStateRow = ""
  /\ rowState blankStateRow <> "Karnataka"
  /\ normalize blankStateRow "Tomato" = None.
Proof. vm_compute. split_and!; [reflexivity | reflexivity | discriminate | reflexivity]. Qed.

(** C8, amended -- alias resolution.  For each field read under several
    headers the first alias whose cell is a non-empty string is taken
    (white space counts as content), and the value is trimmed
    afterwards -- the quantity excepted, which goes untrimmed to
    parseFloat; so a present first alias always wins, and a
    white-space-only one yields the empty value (Medium for the
    suitability once stored, 0 for the quantity). *)
Theorem alias_resolution (row : Row) :
  rowState row = Js.trim (Js.orStr (firstNonEmpty [row !! "state"; row !! "State Name"]) "")
  /\ rowCategory row
     = Js.trim (Js.orStr (firstNonEmpty [row !! "category"; row !! "Group"]) "")
  /\ rowDistrict row
     = Js.trim (Js.orStr (firstNonEmpty [row !! "district"; row !! "District Name"]) "")
  /\ rowScientificName row
     = Js.trim (Js.orStr (firstNonEmpty [row !! "scientific_name";
                                         row !! "Scientific Name"]) "")
  /\ rowDemandQuantityStr row
     = Js.orStr (firstNonEmpty [row !! "demand_quantity"; row !! "Arrivals (Tonnes)";
                                row !! "Arrivals"]) "0"
  /\ rowSuitability row
     = Js.trim (Js.orStr (firstNonEmpty [row !! "suitability"; row !! "Suitability"])
                  "Medium")
  /\ (forall v, v <> "" ->
        (row !! "state" = Some v -> rowState row = Js.trim v)
        /\ (row !! "category" = Some v -> rowCategory row = Js.trim v)
        /\ (row !! "district" = Some v -> rowDistrict row = Js.trim v)
        /\ (row !! "scientific_name" = Some v -> rowScientificName row = Js.trim v)
        /\ (row !! "demand_quantity" = Some v -> rowDemandQuantityStr row = v)
        /\ (row !! "suitability" = Some v -> rowSuitability row = Js.trim v)).
Proof.
  unfold rowState, rowCategory, rowDistrict, rowScientificName, rowDemandQuantityStr,
    rowSuitability.
  rewrite orStr_or3, !orStr_or. split_and!; try reflexivity.
  intros v Hv. split_and!; intros ->; destruct v; done.
Qed.

(** ** The full city index *)

Lemma insertSorted_Permutation {A} (cmp : A -> A -> comparison) x l :
  Permutation (insertSorted cmp x l) (x :: l).
Proof.
  induction l as [|y l IH]; simpl; [done |].
  destruct (cmp x y); [done | done |].
  rewrite IH. apply perm_swap.
Qed.

Lemma sortBy_Permutation {A} (cmp : A -> A -> comparison) l :
  Permutation (sortBy cmp l) l.
Proof.
  induction l as [|x l IH]; simpl; [done |].
  rewrite insertSorted_Permutation. by constructor.
Qed.

Lemma setAdd_elem x y s : x ∈ setAdd y s <-> x ∈ s \/ x = y.
Proof.
  unfold setAdd. destruct (existsb (Js.seqb y) s) eqn:E.
  - split; [by left |]. intros [H | ->]; [done |].
    apply existsb_exists in E as (z & Hz & Heq). apply seqb_eq in Heq. subst z.
    by apply list_elem_of_In.
  - rewrite elem_of_app, list_elem_of_singleton. done.
Qed.

Lemma setAdd_NoDup y s : NoDup s -> NoDup (setAdd y s).
Proof.
  intros Hnd. unfold setAdd. destruct (existsb (Js.seqb y) s) eqn:E; [done |].
  apply list.NoDup_app. split_and!; [done | | apply NoDup_singleton].
  intros x Hx Hx'. apply list_elem_of_singleton in Hx'. subst x.
  assert (existsb (Js.seqb y) s = true); [| congruence].
  apply existsb_exists. exists y. split; [by apply list_elem_of_In | apply seqb_refl].
Qed.

Lemma fold_setAdd {A} (f : A -> string) (l : list A) (acc : list string) :
  NoDup acc ->
  NoDup (fold_left (fun set a => setAdd (f a) set) l acc)
  /\ forall x, x ∈ fold_left (fun set a => setAdd (f a) set) l acc
               <-> x ∈ acc \/ x ∈ map f l.
Proof.
  revert acc. induction l as [|a l IH]; intros acc Hnd; simpl.
  - split; [done |]. intros x. split; [by left | intros [H | H]; [done |]].
    by apply not_elem_of_nil in H.
  - destruct (IH (setAdd (f a) acc) (setAdd_NoDup _ _ Hnd)) as [Hnd' Hel].
    split; [done |]. intros x. rewrite Hel, setAdd_elem, elem_of_cons. tauto.
Qed.

Lemma cityCategorySet_flat states :
  cityCategorySet states
  = fold_left (fun set cat => setAdd cat.(cc_name) set)
      (flat_map cs_categories states) [].
Proof.
  unfold cityCategorySet. generalize (@nil string) as acc.
  induction states as [|st states IH]; intros acc; simpl; [done |].
  by rewrite fold_left_app, IH.
Qed.

Lemma cityCategoryNames_flat states :
  cityCategoryNames states = map cc_name (flat_map cs_categories states).
Proof.
  unfold cityCategoryNames. induction states as [|st states IH]; simpl; [done |].
  by rewrite map_app, IH.
Qed.

Lemma cityCategorySet_size states :
  length (cityCategorySet states)
  = size (list_to_set (cityCategoryNames states) : gset string).
Proof.
  rewrite cityCategorySet_flat, cityCategoryNames_flat.
  destruct (fold_setAdd cc_name (flat_map cs_categories states) [] (NoDup_nil_2))
    as [Hnd Hel].
  rewrite <- (size_list_to_set (C := gset string)) by exact Hnd.
  f_equal. apply set_eq. intros x. rewrite !elem_of_list_to_set, Hel.
  split; [intros [H | H]; [by apply not_elem_of_nil in H | done] | by right].
Qed.

Lemma cityEntry_Some kv e :
  cityEntry kv = Some e ->
  e.(ce_city) = kv.1
  /\ e.(ce_states) = omap cityStateEntry kv.2.(cyd_states)
  /\ e.(ce_summary).(t_totalCategories) = length (cityCategorySet e.(ce_states))
  /\ e.(ce_summary).(t_totalStates) = length e.(ce_states).
Proof.
  unfold cityEntry.
  destruct (omap cityStateEntry (cyd_states kv.2)) as [|st l]; simpl; [done |].
  by intros [= <-].
Qed.

(** C9 -- categories of a city.  In the full city index the
    totalCategories of every city entry is the cardinality of the set of
    category names found under the city, all its states together. *)
Theorem city_total_categories (localeCompare : string -> string -> comparison)
    (demandData : option (list StateEntry)) (r : AllCities) (e : CityEntry) :
  allCitiesHandler localeCompare demandData = Ok r ->
  In e r.(ac_cities) ->
  e.(ce_summary).(t_totalCategories)
  = size (list_to_set (cityCategoryNames e.(ce_states)) : gset string).
Proof.
  unfold allCitiesHandler. destruct (dataUnavailable demandData); [done |].
  intros [= <-]. simpl. intros He.
  apply (Permutation_in _ (sortBy_Permutation _ _)) in He.
  apply list_elem_of_In, list_elem_of_omap in He as (kv & _ & Hkv).
  apply cityEntry_Some in Hkv as (_ & _ & -> & _). apply cityCategorySet_size.
Qed.

(** Bangalore appears under Karnataka and under Kerala, each time with
    Vegetables: two states, one category each, one category in all. *)
Lemma city_total_categories_witness :
  TwoStates.bangalore.(ce_city) = "Bangalore"
  /\ map (fun st => st.(cs_summary).(g_totalCategories)) TwoStates.bangalore.(ce_states)
     = [1; 1]%nat
  /\ cityCategoryNames TwoStates.bangalore.(ce_states) = ["Vegetables"; "Vegetables"]
  /\ TwoStates.bangalore.(ce_summary).(t_totalCategories) = 1%nat.
Proof.
  split_and!; [reflexivity | reflexivity | reflexivity |].
  destruct (allCitiesHandler String.compare (Some TwoStates.snapshot)) as [r|] eqn:E;
    [| vm_compute in E; discriminate E].
  rewrite (city_total_categories String.compare (Some TwoStates.snapshot) r
             TwoStates.bangalore E).
  - reflexivity.
  - unfold TwoStates.bangalore, TwoStates.index. rewrite E.
    assert (Hlen : (0 < length (ac_cities r))%nat).
    { revert E. vm_compute. intros [= <-]. simpl. lia. }
    apply nth_In. exact Hlen.
Defined.

(** ** Reordering the input *)




Lemma refsKept_empty : refsKept emptyBuilder.
Proof. intros g crop H. by rewrite cropAt_empty in H. Qed.

Lemma refsKept_store r st : refsKept st -> refsKept (storeCanonical r st).
Proof.
  intros Hk g crop. rewrite cropAt_store. case_bool_decide as Hg; [| apply Hk].
  intros [= <-]. subst g. unfold cropAfter, cropBefore, mergeIntoCrop. simpl.
  destruct (cropAt st (groupOf r)) as [c|] eqn:E; simpl; [| done].
  by apply (Hk (groupOf r)).
Qed.

Lemma refsKept_processRows rows st : refsKept st -> refsKept (processRows rows st).
Proof. apply processRows_preserves, refsKept_store. Qed.

(** A stored crop of a valid category is a crop of the document. *)
Lemma crop_at_snapshot clock st g crop :
  builderKeyed st -> In g.1.2 VALID_CATEGORIES -> cropAt st g = Some crop ->
  exists se cat,
    In se (finalizeData clock st) /\ se.(state) = g.1.1
    /\ In cat se.(categories) /\ cat.(name) = g.1.2
    /\ In crop cat.(crops) /\ cropKeyOf crop.(cropName) = g.2.
Proof.
  destruct g as [[s c] k]. simpl. intros [Hnd Hall] Hvalid. unfold cropAt. simpl.
  destruct (JsMap.get s (stateDataMap st)) as [sd|] eqn:Es; [| done].
  destruct (JsMap.get c (categoriesMap sd)) as [cd|] eqn:Ec; [| done].
  intros Hk. destruct (Hall _ _ Es) as [Hs [Hcnd Hcall]].
  destruct (Hcall _ _ Ec) as [Hn [Hknd Hkall]].
  apply get_In, list_elem_of_In, list_elem_of_lookup in Es as [i Hi].
  exists (finalizeState (clock i) sd), (finalCategory sd c). split_and!.
  - unfold finalizeData. apply list_elem_of_In.
    apply (elem_of_lookup_imap_2 (fun i kv => finalizeState (clock i) kv.2) _ _ _ Hi).
  - by rewrite finalizeState_state.
  - rewrite finalizeState_categories. by apply in_map.
  - unfold finalCategory. by rewrite Ec.
  - unfold finalCategory. rewrite Ec. simpl. unfold JsMap.values.
    apply in_map_iff. exists (k, crop). split; [done | by apply get_In].
  - by apply Hkall.
Qed.





(** ** The scenario, evaluated *)

Example scenario_tomato :
  map state Scenario.snapshot = ["Karnataka"]
  /\ Scenario.vegetables.(count) = 1%nat
  /\ Scenario.tomato.(cropName) = "Tomato"
  /\ Scenario.tomato.(demandQuantity) = Q2Qc 150
  /\ map factKey Scenario.tomato.(regionalSuitability)
     = [("Bangalore", "High"); ("Mysore", "Medium")]
  /\ snapshotDemand Scenario.snapshot = Q2Qc 150.
Proof.
  split_and!; try (vm_compute; reflexivity); apply Qc_is_canon; vm_compute; reflexivity.
Qed.

Example scenario_zero_quantity :
  processRow (Scenario.row "Karnataka" "Vegetables" "Bangalore" "0" "High") "Tomato"
    (processRows Scenario.rows emptyBuilder)
  = processRows Scenario.rows emptyBuilder.
Proof. vm_compute. reflexivity. Qed.

Example scenario_unknown_category :
  normalize (Scenario.row "Karnataka" "Dairy" "Bangalore" "12.5" "High") "Milk" = None
  /\ (c_category <$> normalize (Scenario.row "Karnataka" "Live Stock,Poultry,Fisheries"
                                  "Bangalore" "12.5" "High") "Hen")
     = Some "Live Stock"
  /\ (c_category <$> normalize (Scenario.row "Karnataka" "OILSEEDS" "Bangalore" "12.5" "")
                       "Sesamum")
     = Some "Oil Seeds".
Proof. split_and!; vm_compute; reflexivity. Qed.

Example scenario_case_insensitive :
  let payload x := match x with Ok r => r.(data) | Failure _ _ _ => [] end in
  payload (cityHandler (Some Scenario.snapshot) "bangalore" None None)
  = payload (cityHandler (Some Scenario.snapshot) "BANGALORE" None None)
  /\ cityHandler (Some Scenario.snapshot) "Mysore" (Some "karnataka") (Some "vegetables")
     <> noDataFound "Mysore"
  /\ cityHandler (Some Scenario.snapshot) "Mysore" (Some "Kerala") None
     = noDataFound "Mysore".
Proof. split_and!; [vm_compute; reflexivity | vm_compute; discriminate | vm_compute; reflexivity]. Qed.

(** ** Further properties of the aggregation *)

(** *** States in order of first appearance *)

Lemma has_existsb {V} k (m : list (string * V)) :
  JsMap.has k m = existsb (Js.seqb k) (JsMap.keys m).
Proof.
  unfold JsMap.has. induction m as [|[k' v] m IH]; simpl; [done |].
  destruct (Js.seqb k k'); [done | exact IH].
Qed.

Lemma keys_set_setAdd {V} k (v : V) m :
  JsMap.keys (JsMap.set k v m) = setAdd k (JsMap.keys m).
Proof. rewrite keys_set, has_existsb. done. Qed.

Lemma stateDataMap_store r st :
  exists sd', stateDataMap (storeCanonical r st)
              = JsMap.set r.(c_state) sd' st.(stateDataMap)
    /\ sd_summary sd'
       = sd_summary (default (newStateData r.(c_state))
                       (JsMap.get r.(c_state) st.(stateDataMap))).
Proof.
  unfold storeCanonical, storeRow.
  repeat match goal with
         | |- context [JsMap.get ?k ?m] => destruct (JsMap.get k m); simpl
         end;
    eexists; split; reflexivity.
Qed.

Lemma keys_store r st :
  JsMap.keys (stateDataMap (storeCanonical r st))
  = setAdd r.(c_state) (JsMap.keys st.(stateDataMap)).
Proof.
  destruct (stateDataMap_store r st) as (sd' & -> & _). apply keys_set_setAdd.
Qed.

Lemma keys_processRows rows st :
  JsMap.keys (stateDataMap (processRows rows st))
  = fold_left (fun acc x => setAdd x acc) (map c_state (acceptedRecords rows))
      (JsMap.keys st.(stateDataMap)).
Proof.
  revert st. induction rows as [|row rows IH]; intros st; [done |].
  rewrite processRows_cons, IH, processRow_normalize, acceptedRecords_cons.
  destruct (normalize row.1 row.2) as [r|]; [| done].
  simpl. by rewrite keys_store.
Qed.

Lemma finalizeData_states clock st :
  builderKeyed st ->
  map state (finalizeData clock st) = JsMap.keys st.(stateDataMap).
Proof.
  intros [Hnd Hall]. unfold finalizeData, JsMap.keys.
  assert (Hin : forall s sd, In (s, sd) (stateDataMap st) -> sd_state sd = s).
  { intros s sd H. apply In_get in H; [| done]. by apply Hall. }
  clear Hnd Hall. revert clock Hin.
  induction (stateDataMap st) as [|[s sd] m IH]; intros clock Hin; [done |].
  simpl. rewrite finalizeState_state, (Hin s sd) by (by left). f_equal.
  apply (IH (clock ∘ S)). intros s' sd' H. apply Hin. by right.
Qed.

Lemma firstSeen_NoDup l : NoDup (firstSeen l).
Proof.
  unfold firstSeen.
  by destruct (fold_setAdd (fun x : string => x) l [] (NoDup_nil_2)) as [H _].
Qed.

Lemma aggregate_states clock rows :
  map state (aggregate clock rows) = firstSeen (map c_state (acceptedRecords rows)).
Proof.
  unfold aggregate. rewrite finalizeData_states
    by apply builderKeyed_processRows, builderKeyed_empty.
  by rewrite keys_processRows.
Qed.

Lemma aggregate_states_NoDup clock rows : NoDup (map state (aggregate clock rows)).
Proof. rewrite aggregate_states. apply firstSeen_NoDup. Qed.

(** X1 -- states of the document.  The snapshot has one entry per state
    of the accepted rows, in the order in which the states first appear
    in the input; no state name occurs twice. *)
Theorem states_first_appearance (clock : nat -> string) (rows : list (Row * string)) :
  map state (aggregate clock rows) = firstSeen (map c_state (acceptedRecords rows))
  /\ NoDup (map state (aggregate clock rows)).
Proof.
  split; [apply aggregate_states | apply aggregate_states_NoDup].
Qed.

(** *** The summary of a state *)

Lemma sumDemand_cropsDemand acc cs : sumDemand acc cs = (acc + cropsDemand cs)%Qc.
Proof.
  unfold sumDemand, cropsDemand. revert acc.
  induction cs as [|c cs IH]; intros acc; simpl; [ring |]. rewrite IH. ring.
Qed.










(** *** The totals [main] prints *)

Lemma fold_left_plus_nat {A} (f : A -> nat) l a :
  fold_left (fun sum x => (sum + f x)%nat) l a = (a + sum_list (map f l))%nat.
Proof.
  revert a. induction l as [|x l IH]; intros a; simpl; [lia |]. rewrite IH. lia.
Qed.

Lemma fold_left_plus_Qc {A} (f : A -> Qc) l a :
  fold_left (fun sum x => (sum + f x)%Qc) l a = (a + sumQc (map f l))%Qc.
Proof.
  revert a. induction l as [|x l IH]; intros a; simpl; [ring |]. rewrite IH. ring.
Qed.


(** *** Crops of a category *)

Lemma snapshot_category_names clock st se :
  builderKeyed st -> In se (finalizeData clock st) ->
  map name se.(categories) = VALID_CATEGORIES.
Proof.
  intros [Hnd Hall] Hse. apply In_finalizeData in Hse as (i & s & sd & Hin & ->).
  apply In_get in Hin; [| done]. destruct (Hall _ _ Hin) as [_ [_ Hcall]].
  rewrite finalizeState_categories, map_map.
  rewrite <- (map_id VALID_CATEGORIES) at 2. apply map_ext. intros c.
  unfold finalCategory.
  destruct (JsMap.get c (categoriesMap sd)) as [cd|] eqn:E; [| done].
  simpl. by apply Hcall.
Qed.

Lemma NoDup_map_inj_on {A B} (f : A -> B) (l : list A) x y :
  NoDup (map f l) -> In x l -> In y l -> f x = f y -> x = y.
Proof.
  induction l as [|a l IH]; simpl; [done |].
  intros Hnd Hx Hy Heq. apply list.NoDup_cons in Hnd as [Ha Hnd].
  destruct Hx as [-> | Hx], Hy as [-> | Hy]; [done | | | by apply IH].
  - exfalso. apply Ha. rewrite Heq. apply list_elem_of_In. by apply in_map.
  - exfalso. apply Ha. rewrite <- Heq. apply list_elem_of_In. by apply in_map.
Qed.

Lemma keys_of_values (cd : CategoryData) :
  cropsKeyed cd ->
  map (fun c => cropKeyOf c.(cropName)) (JsMap.values cd.(cropsMap))
  = JsMap.keys cd.(cropsMap).
Proof.
  intros [Hnd Hall]. unfold JsMap.values, JsMap.keys. rewrite map_map.
  apply map_ext_in. intros [k crop] Hin. simpl. apply Hall. by apply In_get.
Qed.

(** X4 -- one crop per name.  Inside a category of a snapshot no two
    crops have the same key (lowercased, trimmed name), and a key is
    present exactly when some accepted row of that state and category
    has it. *)
Theorem crop_keys_distinct (clock : nat -> string) (rows : list (Row * string))
    (se : StateEntry) (cat : Category) :
  In se (aggregate clock rows) -> In cat se.(categories) ->
  NoDup (map (fun c => cropKeyOf c.(cropName)) cat.(crops))
  /\ forall k, In k (map (fun c => cropKeyOf c.(cropName)) cat.(crops))
               <-> recordsOf (se.(state), cat.(name), k) rows <> [].
Proof.
  intros Hse Hcat.
  assert (Hk : builderKeyed (processRows rows emptyBuilder))
    by apply builderKeyed_processRows, builderKeyed_empty.
  split.
  - pose proof Hse as Hse'. apply In_finalizeData in Hse' as (i & s & sd & Hin & ->).
    destruct Hk as [Hnd Hall]. apply In_get in Hin; [| done].
    destruct (Hall _ _ Hin) as [_ [_ Hcall]].
    rewrite finalizeState_categories in Hcat.
    apply in_map_iff in Hcat as (c & <- & _). unfold finalCategory.
    destruct (JsMap.get c (categoriesMap sd)) as [cd|] eqn:E; simpl;
      [| apply NoDup_nil_2].
    destruct (Hcall _ _ E) as [_ Hck]. rewrite keys_of_values by done. apply Hck.
  - intros k. split.
    + intros Hin. apply in_map_iff in Hin as (crop & <- & Hcrop).
      destruct (aggregate_crop_at _ _ _ _ _ Hse Hcat Hcrop) as [_ Hat].
      assert (is_Some (cropAt (processRows rows emptyBuilder)
                (state se, name cat, cropKeyOf (cropName crop)))) as Hs by (by eexists).
      apply cropAt_processRows_Some in Hs as [[? Hs] | Hs]; done.
    + intros Hrec.
      assert (is_Some (cropAt (processRows rows emptyBuilder) (state se, name cat, k)))
        as [crop Hat] by (apply cropAt_processRows_Some; by right).
      assert (Hvalid : In (name cat) VALID_CATEGORIES).
      { rewrite <- (snapshot_category_names clock _ se Hk Hse). by apply in_map. }
      destruct (crop_at_snapshot clock _ (state se, name cat, k) crop Hk Hvalid Hat)
        as (se' & cat' & H1 & H2 & H3 & H4 & H5 & H6). simpl in *.
      assert (se' = se) as ->.
      { apply (NoDup_map_inj_on state (aggregate clock rows)); try done.
        apply aggregate_states_NoDup. }
      assert (cat' = cat) as ->.
      { apply (NoDup_map_inj_on name (categories se)); try done.
        rewrite (snapshot_category_names clock _ se Hk Hse).
        apply VALID_CATEGORIES_NoDup. }
      apply in_map_iff. by exists crop.
Qed.

Lemma crop_keys_distinct_witness :
  map (fun c => cropKeyOf c.(cropName)) Scenario.vegetables.(crops) = ["tomato"]
  /\ recordsOf (Scenario.karnataka.(state), Scenario.vegetables.(name), "tomato")
       Scenario.rows <> [].
Proof.
  split; [vm_compute; reflexivity |].
  destruct (crop_keys_distinct Scenario.clock Scenario.rows
              Scenario.karnataka Scenario.vegetables) as [_ Hiff].
  - vm_compute. left. reflexivity.
  - vm_compute. left. reflexivity.
  - refine (proj1 (Hiff "tomato") _). vm_compute. left. reflexivity.
Defined.

(** *** What a crop keeps *)

Lemma identity_store r st g c :
  cropAt st g = Some c ->
  exists c', cropAt (storeCanonical r st) g = Some c' /\ identityOf c' = identityOf c.
Proof.
  intros Hat. rewrite cropAt_store. case_bool_decide as Hg; [| by exists c].
  subst g. eexists. split; [done |].
  unfold cropAfter, cropBefore. by rewrite Hat.
Qed.

Lemma identity_processRows rows st g c :
  cropAt st g = Some c ->
  exists c', cropAt (processRows rows st) g = Some c' /\ identityOf c' = identityOf c.
Proof.
  revert st c. induction rows as [|row rows IH]; intros st c Hat; [by exists c |].
  rewrite processRows_cons, processRow_normalize.
  destruct (normalize row.1 row.2) as [r|]; [| by apply IH].
  destruct (identity_store r st g c Hat) as (c1 & H1 & Hid1).
  destruct (IH _ _ H1) as (c2 & H2 & Hid2). exists c2. split; [done | congruence].
Qed.

Lemma first_record_processRows rows st g crop :
  cropAt st g = None -> cropAt (processRows rows st) g = Some crop ->
  exists r rest, recordsOf g rows = r :: rest
    /\ crop.(cropName) = r.(c_cropName)
    /\ crop.(scientificName) = r.(c_scientificName).
Proof.
  revert st. induction rows as [|row rows IH]; intros st Hnone Hat;
    [simpl in Hat; congruence |].
  rewrite processRows_cons, processRow_normalize in Hat. rewrite recordsOf_cons.
  destruct (normalize row.1 row.2) as [r|]; [| by apply (IH st)].
  case_bool_decide as Hg; [| apply (IH (storeCanonical r st)); [| done];
                             by rewrite cropAt_store_other].
  subst g. pose proof (cropAt_store_same r st) as Hsame.
  destruct (identity_processRows rows _ _ _ Hsame) as (c' & Hc' & Hid).
  rewrite Hat in Hc'. injection Hc' as <-.
  exists r, (recordsOf (groupOf r) rows). split; [done |].
  unfold identityOf, cropAfter, cropBefore in Hid. rewrite Hnone in Hid.
  simpl in Hid. by injection Hid as _ -> -> _.
Qed.

(** X5 -- first row wins.  Every crop of a snapshot carries the cropName
    and the scientificName of the first accepted row of its group (same
    state, category and key); later rows of the group change neither. *)
Theorem crop_first_seen (clock : nat -> string) (rows : list (Row * string))
    (se : StateEntry) (cat : Category) (crop : Crop) :
  In se (aggregate clock rows) -> In cat se.(categories) -> In crop cat.(crops) ->
  exists r rest,
    recordsOf (se.(state), cat.(name), cropKeyOf crop.(cropName)) rows = r :: rest
    /\ crop.(cropName) = r.(c_cropName)
    /\ crop.(scientificName) = r.(c_scientificName).
Proof.
  intros Hse Hcat Hcrop.
  destruct (aggregate_crop_at _ _ _ _ _ Hse Hcat Hcrop) as [_ Hat].
  by apply (first_record_processRows rows emptyBuilder).
Qed.

Lemma crop_first_seen_witness :
  exists r rest,
    recordsOf ("Karnataka", "Vegetables", "tomato") Reordered.namedFirst = r :: rest
    /\ r.(c_scientificName) = "Solanum lycopersicum"
    /\ r.(c_district) = "Bangalore".
Proof.
  set (s1 := aggregate Scenario.clock Reordered.namedFirst).
  set (se := nth 0 s1 Scenario.noState).
  set (cat := nth 0 se.(categories) Scenario.noCategory).
  set (crop := nth 0 cat.(crops) Scenario.noCrop).
  destruct (crop_first_seen Scenario.clock Reordered.namedFirst se cat crop)
    as (r & rest & Hrec & _ & Hsci).
  - vm_compute. left. reflexivity.
  - vm_compute. left. reflexivity.
  - vm_compute. left. reflexivity.
  - exists r, rest.
    assert (Hg : (state se, name cat, cropKeyOf (cropName crop))
                 = ("Karnataka", "Vegetables", "tomato")) by (vm_compute; reflexivity).
    rewrite Hg in Hrec. split; [exact Hrec |].
    assert (Hsci' : scientificName crop = "Solanum lycopersicum")
      by (vm_compute; reflexivity).
    split; [congruence |].
    revert Hrec. vm_compute. intros [= <- _]. reflexivity.
Defined.

(** *** Demand and facts of a crop *)

Lemma quantityOf_pos rs :
  rs <> [] -> (forall r, In r rs -> (0 < r.(c_quantity))%Qc) -> (0 < quantityOf rs)%Qc.
Proof.
  unfold quantityOf. induction rs as [|r rs IH]; [done |]. intros _ Hall. simpl.
  destruct rs as [|r' rs'].
  - simpl. assert ((c_quantity r + 0)%Qc = c_quantity r) as -> by ring.
    apply Hall. by left.
  - apply Qcplus_pos_pos; [apply Hall; by left |].
    apply IH; [done |]. intros x Hx. apply Hall. by right.
Qed.

Lemma recordsOf_accepted g rows r :
  In r (recordsOf g rows) ->
  groupOf r = g /\ exists row, In row rows /\ normalize row.1 row.2 = Some r.
Proof.
  unfold recordsOf, acceptedRecords. intros H. apply filter_In in H as [H Hg].
  apply bool_decide_eq_true in Hg. split; [done |].
  apply list_elem_of_In, list_elem_of_omap in H as (row & Hrow & Hn).
  exists row. split; [by apply list_elem_of_In | done].
Qed.

(** X6 -- crops of a snapshot.  Every crop has a positive demandQuantity
    and at least one region fact; every fact has geography India, the
    name of the crop's state, a non-empty suitability, and is the fact
    of a row merged into the crop. *)
Theorem crop_well_formed (clock : nat -> string) (rows : list (Row * string))
    (se : StateEntry) (cat : Category) (crop : Crop) :
  In se (aggregate clock rows) -> In cat se.(categories) -> In crop cat.(crops) ->
  (0 < crop.(demandQuantity))%Qc
  /\ crop.(regionalSuitability) <> []
  /\ crop.(categoryId) = refOf cat.(name)
  /\ forall f, In f crop.(regionalSuitability) ->
       f.(geography) = "India" /\ f.(r_state) = se.(state)
       /\ f.(suitability) <> ""
       /\ exists r,
            In r (recordsOf (se.(state), cat.(name), cropKeyOf crop.(cropName)) rows)
            /\ f = factOf r.
Proof.
  intros Hse Hcat Hcrop.
  destruct (aggregate_crop_at _ _ _ _ _ Hse Hcat Hcrop) as [_ Hat].
  set (g := (state se, name cat, cropKeyOf (cropName crop))) in *.
  assert (Hrec : recordsOf g rows <> []).
  { assert (is_Some (cropAt (processRows rows emptyBuilder) g)) as Hs by (by eexists).
    apply cropAt_processRows_Some in Hs as [[? Hs] | Hs]; done. }
  assert (Hreg : regionsAt (processRows rows emptyBuilder) g = regionalSuitability crop)
    by (unfold regionsAt; by rewrite Hat).
  split_and!.
  - pose proof (demandAt_processRows rows emptyBuilder g) as Hd.
    unfold demandAt in Hd. rewrite Hat, cropAt_empty in Hd. rewrite Hd.
    assert ((0 + quantityOf (recordsOf g rows))%Qc = quantityOf (recordsOf g rows))
      as -> by ring.
    apply quantityOf_pos; [done |]. intros r Hr.
    apply recordsOf_accepted in Hr as (_ & row & _ & Hn).
    by apply normalize_valid in Hn as (_ & ? & _).
  - destruct (recordsOf g rows) as [|r l] eqn:E; [done |].
    assert (In (factOf r) (regionsAt (processRows rows emptyBuilder) g)) as Hin.
    { apply regionsAt_processRows; [apply factsScoped_empty |]. right.
      exists r. split; [rewrite E; by left | done]. }
    rewrite Hreg in Hin. intros Hnil. by rewrite Hnil in Hin.
  - apply (refsKept_processRows rows _ refsKept_empty g crop Hat).
  - intros f Hf. rewrite <- Hreg in Hf.
    apply regionsAt_processRows in Hf; [| apply factsScoped_empty].
    destruct Hf as [Hf | (r & Hr & ->)]; [done |].
    pose proof (recordsOf_accepted _ _ _ Hr) as [Hg _].
    split_and!; [done | | | by exists r].
    + subst g. unfold groupOf in Hg. simpl. congruence.
    + unfold factOf. simpl. by destruct (c_suitability r).
Qed.

Lemma crop_well_formed_witness :
  (0 < Scenario.tomato.(demandQuantity))%Qc
  /\ map suitability Scenario.tomato.(regionalSuitability) = ["High"; "Medium"].
Proof.
  destruct (crop_well_formed Scenario.clock Scenario.rows
              Scenario.karnataka Scenario.vegetables Scenario.tomato)
    as (Hpos & _).
  - vm_compute. left. reflexivity.
  - vm_compute. left. reflexivity.
  - vm_compute. left. reflexivity.
  - split; [exact Hpos | vm_compute; reflexivity].
Defined.

(** *** One row at a time *)

Lemma regionsAt_store_prefix r st g :
  exists l, regionsAt (storeCanonical r st) g = regionsAt st g ++ l.
Proof.
  unfold regionsAt at 1. rewrite cropAt_store. case_bool_decide as Hg.
  - subst g. rewrite regions_cropAfter. destruct (existsb _ _).
    + exists []. by rewrite app_nil_r.
    + by eexists.
  - exists []. by rewrite app_nil_r.
Qed.

(** X7 -- a row touches one crop only, and only adds.  [processRow]
    leaves the crop of every group but the row's own as it is; for every
    group it never lowers the demand, never removes a crop, and keeps
    the region facts already there, in place, adding at most at the
    end. *)
Theorem processRow_only_adds (row : Row) (cropNameFromFile : string) (st : Builder)
    (g : Group) :
  ((forall r, normalize row cropNameFromFile = Some r -> groupOf r <> g) ->
   cropAt (processRow row cropNameFromFile st) g = cropAt st g)
  /\ (demandAt st g <= demandAt (processRow row cropNameFromFile st) g)%Qc
  /\ (is_Some (cropAt st g) -> is_Some (cropAt (processRow row cropNameFromFile st) g))
  /\ (exists l, regionsAt (processRow row cropNameFromFile st) g = regionsAt st g ++ l)
  /\ (forall c, cropAt st g = Some c ->
        exists c', cropAt (processRow row cropNameFromFile st) g = Some c'
                   /\ identityOf c' = identityOf c).
Proof.
  rewrite processRow_normalize.
  destruct (normalize row cropNameFromFile) as [r|] eqn:E.
  - split_and!.
    + intros H. apply cropAt_store_other. by apply H.
    + rewrite demandAt_store. case_bool_decide.
      * apply normalize_valid in E as (_ & Hpos & _).
        rewrite <- (Qcplus_0_r (demandAt st g)) at 1.
        apply Qcplus_le_mono_l. by apply Qclt_le_weak.
      * rewrite Qcplus_0_r. apply Qcle_refl.
    + intros [c Hc]. destruct (identity_store r st g c Hc) as (c' & Hc' & _). by eexists.
    + apply regionsAt_store_prefix.
    + intros c Hc. by apply identity_store.
  - split_and!; [done | apply Qcle_refl | done | exists []; by rewrite app_nil_r |].
    intros c Hc. by exists c.
Qed.


(** ** Further properties of the classification *)

Lemma isWhite_lowerAscii c : Js.isWhite (Js.lowerAscii c) = Js.isWhite c.
Proof. destruct c as [[] [] [] [] [] [] [] []]; reflexivity. Qed.

Lemma trimStart_toLowerCase s :
  Js.trimStart (Js.toLowerCase s) = Js.toLowerCase (Js.trimStart s).
Proof.
  induction s as [|c s IH]; simpl; [done |].
  rewrite isWhite_lowerAscii. by destruct (Js.isWhite c).
Qed.

Lemma trimEnd_toLowerCase s :
  Js.trimEnd (Js.toLowerCase s) = Js.toLowerCase (Js.trimEnd s).
Proof.
  induction s as [|c s IH]; simpl; [done |].
  rewrite IH, isWhite_lowerAscii.
  destruct (Js.trimEnd s); simpl; [by destruct (Js.isWhite c) | done].
Qed.

Lemma trim_toLowerCase s : Js.trim (Js.toLowerCase s) = Js.toLowerCase (Js.trim s).
Proof. unfold Js.trim. by rewrite trimStart_toLowerCase, trimEnd_toLowerCase. Qed.

Lemma seqb_sym a b : Js.seqb a b = Js.seqb b a.
Proof.
  apply eq_true_iff_eq. rewrite !seqb_eq. split; congruence.
Qed.

Lemma mapCategoryToValid_fixed :
  Forall (fun c => forall n, mapCategoryToValid c n = Some c) VALID_CATEGORIES.
Proof.
  unfold VALID_CATEGORIES. repeat constructor; intros n; vm_compute; reflexivity.
Qed.

(** X9 -- the classifier.  [mapCategoryToValid] answers only names of
    VALID_CATEGORIES; it is idempotent (a name it answers is mapped to
    itself); it answers nothing for the empty group; and for non-empty
    groups the answer depends on the group only up to case and
    surrounding white space, and not at all on the crop name. *)
Theorem mapCategoryToValid_canonical :
  (forall csvGroup cropName c,
     mapCategoryToValid csvGroup cropName = Some c ->
     In c VALID_CATEGORIES /\ forall cropName', mapCategoryToValid c cropName' = Some c)
  /\ (forall cropName, mapCategoryToValid "" cropName = None)
  /\ (forall g1 g2 n1 n2,
        g1 <> "" -> g2 <> "" ->
        Js.toLowerCase (Js.trim g1) = Js.toLowerCase (Js.trim g2) ->
        mapCategoryToValid g1 n1 = mapCategoryToValid g2 n2).
Proof.
  split_and!.
  - intros g n c H. apply mapCategoryToValid_valid in H as [Hin _].
    split; [done |]. intros n'.
    pose proof mapCategoryToValid_fixed as Hall. rewrite Forall_forall in Hall.
    by apply Hall.
  - done.
  - intros g1 g2 n1 n2 H1 H2 Heq. unfold mapCategoryToValid. cbv zeta.
    assert (Js.truthy (Some g1) = true) as -> by (by destruct g1).
    assert (Js.truthy (Some g2) = true) as -> by (by destruct g2).
    by rewrite Heq.
Qed.

(** X10 -- one classification.  The case-insensitive direct match that
    [processRow] tries first is the one [mapCategoryToValid] starts with:
    the category a row is filed under is always
    [mapCategoryToValid(category, cropName)]. *)
Theorem direct_match_redundant (row : Row) (cropNameFromFile : string) :
  rowValidCategory row cropNameFromFile
  = mapCategoryToValid (rowCategory row) (rowCropName row cropNameFromFile).
Proof.
  unfold rowValidCategory. cbv zeta.
  generalize (rowCropName row cropNameFromFile) as n.
  generalize (rowCategory row) as c. intros c n.
  destruct c as [|a c'].
  - vm_compute. reflexivity.
  - set (c := String a c').
    assert (Hfind :
      find (fun cat => Js.seqb (Js.toLowerCase cat) (Js.trim (Js.toLowerCase c)))
           VALID_CATEGORIES
      = find (fun cat => Js.seqb (Js.toLowerCase (Js.trim c)) (Js.toLowerCase cat))
             VALID_CATEGORIES).
    { apply find_ext_in. intros cat _. by rewrite trim_toLowerCase, seqb_sym. }
    destruct (Js.truthy (find _ VALID_CATEGORIES)) eqn:E; [| done].
    unfold mapCategoryToValid. cbv zeta.
    assert (Js.truthy (Some c) = true) as -> by done. cbn [negb].
    rewrite <- Hfind, E. done.
Qed.

Example classification_examples :
  mapCategoryToValid "  FIBER crops " "" = Some "Fibre Crops"
  /\ mapCategoryToValid "Drug & Narcotics" "" = Some "Drug and Narcotics"
  /\ mapCategoryToValid "my livestock farm" "" = Some "Live Stock"
  /\ mapCategoryToValid "Dairy" "" = None
  /\ mapCategoryToValid "   " "" = None.
Proof. split_and!; vm_compute; reflexivity. Qed.

(** ** Further properties of the district projection *)

Lemma omap_ext_in {A B} (f g : A -> option B) (l : list A) :
  (forall x, In x l -> f x = g x) -> omap f l = omap g l.
Proof.
  induction l as [|a l IH]; intros H; simpl; [done |].
  rewrite (H a) by (by left).
  assert (omap f l = omap g l) as Heq by (apply IH; intros x Hx; apply H; by right).
  destruct (g a); simpl; [f_equal |]; exact Heq.
Qed.

Lemma omap_sublist {A B C} (f : A -> option B) (g : B -> C) (h : A -> C) (l : list A) :
  (forall x y, f x = Some y -> g y = h x) ->
  sublist (map g (omap f l)) (map h l).
Proof.
  intros H. induction l as [|a l IH]; simpl; [constructor |].
  destruct (f a) as [y|] eqn:E; simpl.
  - rewrite (H a y E). by constructor.
  - by constructor.
Qed.



Lemma projectCategory_count cityName cf se cat cat' :
  projectCategory cityName cf se cat = Some cat' ->
  cat'.(name) = cat.(name) /\ cat'.(count) = length cat'.(crops)
  /\ (0 < cat'.(count))%nat.
Proof.
  intros H. pose proof H as H'.
  apply projectCategory_Some in H as (_ & (crop & Hin & Hm) & ->). simpl.
  rewrite length_map. split_and!; [done | done |].
  assert (In crop (List.filter (cropMatches cityName se) (crops cat))) as Hf
    by (apply filter_In; split; [done | by apply cropMatches_true]).
  destruct (List.filter _ (crops cat)); [done | simpl; lia].
Qed.



(** *** Case and blank filters *)

Lemma toLowerCase_nil s : Js.toLowerCase s = "" <-> s = "".
Proof. destruct s; simpl; split; intros H; congruence. Qed.

Lemma projectState_lower a b sf cf se :
  Js.toLowerCase a = Js.toLowerCase b ->
  projectState a sf cf se = projectState b sf cf se.
Proof.
  intros H. unfold projectState, projectCategory, cropMatches, cityCrop, regionMatches.
  by rewrite H.
Qed.

(** X12 -- the district is compared up to case.  Two district names
    that agree up to case and surrounding white space get the same
    status, the same states, categories and crops, and the same
    summaries. *)
Theorem projection_case_insensitive (demandData : option (list StateEntry))
    (city1 city2 : string) (stateQuery categoryQuery : option string) :
  Js.toLowerCase (Js.trim city1) = Js.toLowerCase (Js.trim city2) ->
  payloadOf (cityHandler demandData city1 stateQuery categoryQuery)
  = payloadOf (cityHandler demandData city2 stateQuery categoryQuery)
  /\ statusOf (cityHandler demandData city1 stateQuery categoryQuery)
     = statusOf (cityHandler demandData city2 stateQuery categoryQuery).
Proof.
  intros H. unfold cityHandler.
  assert (isEmpty (Js.trim city1) = isEmpty (Js.trim city2)) as ->.
  { apply eq_true_iff_eq. rewrite !isEmpty_true.
    rewrite <- (toLowerCase_nil (Js.trim city1)), <- (toLowerCase_nil (Js.trim city2)).
    by rewrite H. }
  destruct (isEmpty (Js.trim city2)); [done |].
  destruct (dataUnavailable demandData); [done |].
  rewrite (omap_ext_in (projectState (Js.trim city1) _ _)
             (projectState (Js.trim city2) (queryFilter stateQuery)
                (queryFilter categoryQuery)))
    by (intros se _; by apply projectState_lower).
  by destruct (length _ =? 0)%nat.
Qed.

Lemma projection_case_insensitive_witness :
  payloadOf (cityHandler (Some Scenario.snapshot) "mysore" None None)
  = payloadOf (cityHandler (Some Scenario.snapshot) "  MYSORE " None None)
  /\ statusOf (cityHandler (Some Scenario.snapshot) "mysore" None None) = 200%nat.
Proof.
  destruct (projection_case_insensitive (Some Scenario.snapshot) "mysore" "  MYSORE "
              None None) as [H1 H2].
  - vm_compute. reflexivity.
  - split; [exact H1 | vm_compute; reflexivity].
Defined.

Lemma blank_filter q :
  Js.trim q = "" ->
  (forall x, filteredOut (queryFilter (Some q)) x = false)
  /\ Js.orStr (queryFilter (Some q)) "all" = "all".
Proof.
  intros H. unfold queryFilter. destruct q as [|a q']; [done |].
  cbn [Js.truthy Js.orStr]. rewrite H. done.
Qed.

Lemma projectState_filters c sf sf' cf cf' se :
  (forall x, filteredOut sf x = filteredOut sf' x) ->
  (forall x, filteredOut cf x = filteredOut cf' x) ->
  projectState c sf cf se = projectState c sf' cf' se.
Proof.
  intros Hs Hc. unfold projectState. rewrite Hs.
  rewrite (omap_ext_in (projectCategory c cf se) (projectCategory c cf' se)); [done |].
  intros cat _. unfold projectCategory. by rewrite Hc.
Qed.

(** X13 -- a blank filter is no filter.  A state or category query
    value made of white space only is treated as absent: the answer is
    the one without the filter, and the filter is echoed as all. *)
Theorem blank_filter_ignored (demandData : option (list StateEntry))
    (cityNameParam q : string) (other : option string) :
  Js.trim q = "" ->
  cityHandler demandData cityNameParam (Some q) other
  = cityHandler demandData cityNameParam None other
  /\ cityHandler demandData cityNameParam other (Some q)
     = cityHandler demandData cityNameParam other None.
Proof.
  intros H. destruct (blank_filter q H) as [Hf Ho]. unfold cityHandler.
  destruct (isEmpty (Js.trim cityNameParam)); [done |].
  destruct (dataUnavailable demandData); [done |].
  rewrite !Ho. change (queryFilter None) with (@None string).
  cbn [Js.orStr].
  rewrite (omap_ext_in
             (projectState (Js.trim cityNameParam) (queryFilter (Some q))
                (queryFilter other))
             (projectState (Js.trim cityNameParam) None (queryFilter other)))
    by (intros se _; apply projectState_filters; [intros x; by rewrite Hf | done]).
  rewrite (omap_ext_in
             (projectState (Js.trim cityNameParam) (queryFilter other)
                (queryFilter (Some q)))
             (projectState (Js.trim cityNameParam) (queryFilter other) None))
    by (intros se _; apply projectState_filters; [done | intros x; by rewrite Hf]).
  done.
Qed.

Lemma blank_filter_ignored_witness :
  cityHandler (Some Scenario.snapshot) "Mysore" (Some "  ") None
  = cityHandler (Some Scenario.snapshot) "Mysore" None None.
Proof.
  destruct (blank_filter_ignored (Some Scenario.snapshot) "Mysore" "  " None) as [H _].
  - vm_compute. reflexivity.
  - exact H.
Defined.

(** X14 -- what a projection keeps.  The states of a 200 answer are
    states of the snapshot, in the snapshot's order, and all pass the
    state filter; the categories of each are categories of that state,
    in its order, and all pass the category filter. *)
Theorem projection_keeps_order (snap : list StateEntry) (cityNameParam : string)
    (stateQuery categoryQuery : option string) (r : CityResult) :
  cityHandler (Some snap) cityNameParam stateQuery categoryQuery = Ok r ->
  sublist (map sr_state r.(data)) (map state snap)
  /\ forall sr, In sr r.(data) ->
       passes (queryFilter stateQuery) sr.(sr_state)
       /\ (forall cat, In cat sr.(sr_categories) ->
             passes (queryFilter categoryQuery) cat.(name))
       /\ exists se, In se snap /\ se.(state) = sr.(sr_state)
            /\ sublist (map name sr.(sr_categories)) (map name se.(categories)).
Proof.
  intros Hok. apply cityHandler_Ok in Hok as (_ & _ & Hdata). simpl in Hdata.
  rewrite Hdata. split.
  - apply omap_sublist. intros se sr H. by apply projectState_Some in H as (_ & ? & _).
  - intros sr Hsr. apply list_elem_of_In, list_elem_of_omap in Hsr as (se & Hse & Hp).
    apply projectState_Some in Hp as (Hps & Hst & Hcats & _).
    split_and!.
    + by rewrite Hst.
    + intros cat Hcat. rewrite Hcats in Hcat.
      apply list_elem_of_In, list_elem_of_omap in Hcat as (cat0 & _ & Hc).
      apply projectCategory_Some in Hc as (Hpc & _ & ->). done.
    + exists se. split_and!; [by apply list_elem_of_In | done |].
      rewrite Hcats. apply omap_sublist. intros cat cat' H.
      by apply projectCategory_count in H as (? & _).
Qed.

Lemma projection_keeps_order_witness :
  exists r, cityHandler (Some TwoStates.snapshot) "Bangalore" (Some "kerala") None = Ok r
    /\ sublist (map sr_state r.(data)) (map state TwoStates.snapshot)
    /\ map sr_state r.(data) = ["Kerala"].
Proof.
  destruct (cityHandler (Some TwoStates.snapshot) "Bangalore" (Some "kerala") None)
    as [r|] eqn:E; [| vm_compute in E; discriminate E].
  exists r. split; [reflexivity |].
  destruct (projection_keeps_order _ _ _ _ _ E) as [Hsub _].
  split; [exact Hsub |].
  revert E. vm_compute. intros [= <-]. reflexivity.
Defined.


(** ** The health endpoint *)


(** ** The list of cities *)

Lemma fold_left_flat_map {A B C} (f : C -> B -> C) (g : A -> list B) (l : list A) (a : C) :
  fold_left (fun acc x => fold_left f (g x) acc) l a = fold_left f (flat_map g l) a.
Proof.
  revert a. induction l as [|x l IH]; intros a; simpl; [done |].
  by rewrite fold_left_app, IH.
Qed.

Lemma fold_left_ext {A B} (f g : B -> A -> B) (l : list A) (a : B) :
  (forall b x, f b x = g b x) -> fold_left f l a = fold_left g l a.
Proof.
  intros H. revert a. induction l as [|x l IH]; intros a; simpl; [done |].
  by rewrite H, IH.
Qed.

Lemma collectDistricts_flat demandData :
  collectDistricts demandData
  = fold_left (fun set d => if Js.truthy (Some d) then setAdd d set else set)
      (allDistricts demandData) [].
Proof.
  unfold collectDistricts, allDistricts.
  rewrite <- fold_left_flat_map. apply fold_left_ext. intros set se.
  rewrite <- fold_left_flat_map. apply fold_left_ext. intros set' cat.
  rewrite <- fold_left_flat_map. apply fold_left_ext. intros set'' crop.
  generalize (regionalSuitability crop) as rs. intros rs. revert set''.
  induction rs as [|r rs IH]; intros set''; simpl; [done |]. by rewrite IH.
Qed.

Lemma fold_setAdd_truthy (l : list string) (acc : list string) :
  NoDup acc ->
  NoDup (fold_left (fun set d => if Js.truthy (Some d) then setAdd d set else set) l acc)
  /\ forall x, x ∈ fold_left (fun set d => if Js.truthy (Some d) then setAdd d set
                                             else set) l acc
               <-> x ∈ acc \/ (x <> "" /\ x ∈ l).
Proof.
  revert acc. induction l as [|d l IH]; intros acc Hnd; simpl.
  - split; [done |]. intros x. split; [by left |].
    intros [H | [_ H]]; [done | by apply not_elem_of_nil in H].
  - destruct d as [|a d']; simpl.
    + destruct (IH acc Hnd) as [Hnd' Hel]. split; [done |]. intros x.
      rewrite Hel, elem_of_cons. split; [tauto |].
      intros [H | [Hne [H | H]]]; [by left | done | right; by split].
    + destruct (IH (setAdd (String a d') acc) (setAdd_NoDup _ _ Hnd)) as [Hnd' Hel].
      split; [done |]. intros x. rewrite Hel, setAdd_elem, elem_of_cons. split.
      * intros [[H | ->] | [Hne H]]; [by left | right; split; [done | by left] |].
        right. split; [done | by right].
      * intros [H | [Hne [-> | H]]]; [left; by left | left; by right |].
        right. by split.
Qed.

Lemma In_allDistricts demandData d :
  In d (allDistricts demandData)
  <-> exists se cat crop region,
        In se demandData /\ In cat se.(categories) /\ In crop cat.(crops)
        /\ In region crop.(regionalSuitability) /\ region.(district) = d.
Proof.
  unfold allDistricts. rewrite in_flat_map. split.
  - intros (se & Hse & H). apply in_flat_map in H as (cat & Hcat & H).
    apply in_flat_map in H as (crop & Hcrop & H).
    apply in_map_iff in H as (region & Hd & Hr). by exists se, cat, crop, region.
  - intros (se & cat & crop & region & Hse & Hcat & Hcrop & Hr & Hd).
    exists se. split; [done |]. apply in_flat_map. exists cat. split; [done |].
    apply in_flat_map. exists crop. split; [done |]. apply in_map_iff. by exists region.
Qed.

Section SortFacts.
Context {A : Type} (cmp : A -> A -> comparison).
Hypothesis cmp_antisym : forall a b, cmp a b = CompOpp (cmp b a).

Lemma insertSorted_HdRel x a l :
  cmp a x <> Gt -> HdRel (fun a b => cmp a b <> Gt) a l ->
  HdRel (fun a b => cmp a b <> Gt) a (insertSorted cmp x l).
Proof.
  intros Hax Hl. destruct l as [|y l]; simpl; [by constructor |].
  destruct (cmp x y); constructor; try done. by inversion Hl.
Qed.

Lemma insertSorted_ascending x l :
  ascending cmp l -> ascending cmp (insertSorted cmp x l).
Proof.
  unfold ascending. induction 1 as [|y l Hs IH Hhd]; simpl.
  - by repeat constructor.
  - destruct (cmp x y) eqn:E.
    + constructor; [by constructor |]. constructor. by rewrite E.
    + constructor; [by constructor |]. constructor. by rewrite E.
    + constructor; [exact IH |]. apply insertSorted_HdRel; [| done].
      rewrite cmp_antisym, E. done.
Qed.

Lemma sortBy_ascending l : ascending cmp (sortBy cmp l).
Proof.
  induction l as [|x l IH]; simpl; [constructor |]. by apply insertSorted_ascending.
Qed.
End SortFacts.

(** X17 -- the list of cities.  A 200 answer of /api/demand/cities
    lists exactly the non-empty districts recorded in the snapshot, each
    once, in ascending order of code units; totalCities is the length of
    the list. *)
Theorem cities_list (demandData : option (list StateEntry)) (r : CitiesList) :
  citiesHandler demandData = Ok r ->
  r.(cl_totalCities) = length r.(cl_cities)
  /\ NoDup r.(cl_cities)
  /\ ascending String.compare r.(cl_cities)
  /\ forall d, In d r.(cl_cities)
       <-> d <> "" /\ exists se cat crop region,
             In se (default [] demandData) /\ In cat se.(categories)
             /\ In crop cat.(crops) /\ In region crop.(regionalSuitability)
             /\ region.(district) = d.
Proof.
  unfold citiesHandler. destruct (dataUnavailable demandData); [done |].
  intros [= <-]. cbn [cl_totalCities cl_cities].
  destruct (fold_setAdd_truthy (allDistricts (default [] demandData)) [] (NoDup_nil_2))
    as [Hnd Hel].
  rewrite <- collectDistricts_flat in Hnd, Hel.
  split_and!.
  - done.
  - by rewrite sortBy_Permutation.
  - apply sortBy_ascending. apply String.compare_antisym.
  - intros d. rewrite <- In_allDistricts, <- !list_elem_of_In.
    rewrite sortBy_Permutation, Hel. split; [| by right].
    intros [H | H]; [by apply not_elem_of_nil in H | done].
Qed.

Lemma cities_list_witness :
  exists r, citiesHandler (Some TwoStates.snapshot) = Ok r
    /\ r.(cl_cities) = ["Bangalore"; "Mysore"] /\ NoDup r.(cl_cities).
Proof.
  destruct (citiesHandler (Some TwoStates.snapshot)) as [r|] eqn:E;
    [| vm_compute in E; discriminate E].
  exists r. split; [reflexivity |].
  destruct (cities_list _ _ E) as (_ & Hnd & _). split; [| exact Hnd].
  revert E. vm_compute. intros [= <-]. reflexivity.
Defined.

(** ** Further properties of the full city index *)

Lemma fold_left_keys {V A} (f : list (string * V) -> A -> list (string * V))
    (h : list string -> A -> list string) (l : list A) (m : list (string * V)) :
  (forall m x, JsMap.keys (f m x) = h (JsMap.keys m) x) ->
  JsMap.keys (fold_left f l m) = fold_left h l (JsMap.keys m).
Proof.
  intros H. revert m. induction l as [|x l IH]; intros m; simpl; [done |].
  by rewrite IH, H.
Qed.

Lemma keys_visitRegion category crop m region :
  JsMap.keys (visitRegion category crop m region)
  = if Js.truthy (Some region.(district)) then setAdd region.(district) (JsMap.keys m)
    else JsMap.keys m.
Proof.
  unfold visitRegion, isEmpty. destruct (Js.truthy (Some (district region))); [| done].
  cbn [negb]. apply keys_set_setAdd.
Qed.

Lemma keys_buildCitiesMap demandData :
  JsMap.keys (buildCitiesMap demandData) = collectDistricts demandData.
Proof.
  unfold buildCitiesMap, collectDistricts.
  apply (fold_left_keys _ _ demandData []). intros m se.
  apply fold_left_keys. intros m' cat.
  apply fold_left_keys. intros m'' crop.
  apply fold_left_keys. intros m3 region. apply keys_visitRegion.
Qed.

Lemma length_omap_le {A B} (f : A -> option B) (l : list A) :
  (length (omap f l) <= length l)%nat.
Proof.
  induction l as [|a l IH]; [done |].
  change (omap f (a :: l))
    with (match f a with Some y => y :: omap f l | None => omap f l end).
  destruct (f a); simpl; lia.
Qed.

(** X18 -- the two counts of cities.  The totalCities of the full index
    is the totalCities of the list of cities; it counts every non-empty
    district, so the index never has more entries than it announces; and
    every entry of the index is a city of the list. *)
Theorem all_cities_total (localeCompare : string -> string -> comparison)
    (demandData : option (list StateEntry)) (ra : AllCities) :
  allCitiesHandler localeCompare demandData = Ok ra ->
  exists rc, citiesHandler demandData = Ok rc
    /\ ra.(ac_totalCities) = rc.(cl_totalCities)
    /\ (length ra.(ac_cities) <= ra.(ac_totalCities))%nat
    /\ forall e, In e ra.(ac_cities) -> In e.(ce_city) rc.(cl_cities).
Proof.
  unfold allCitiesHandler, citiesHandler.
  destruct (dataUnavailable demandData); [done |]. intros [= <-].
  eexists. split; [done |]. cbn [ac_totalCities ac_cities cl_totalCities cl_cities].
  set (m := buildCitiesMap (default [] demandData)).
  assert (Hlen : forall {X} (cmp : X -> X -> comparison) l,
            length (sortBy cmp l) = length l)
    by (intros; apply Permutation_length, sortBy_Permutation).
  split_and!.
  - rewrite Hlen, <- keys_buildCitiesMap. unfold JsMap.keys. by rewrite length_map.
  - rewrite Hlen. apply length_omap_le.
  - intros e He. apply (Permutation_in _ (sortBy_Permutation _ _)) in He.
    apply list_elem_of_In, list_elem_of_omap in He as ([k cd] & Hkv & He).
    apply cityEntry_Some in He as (-> & _). simpl.
    apply (Permutation_in _ (Permutation_sym (sortBy_Permutation _ _))).
    rewrite <- keys_buildCitiesMap. unfold JsMap.keys.
    apply in_map_iff. exists (k, cd). split; [done | by apply list_elem_of_In].
Qed.

Lemma all_cities_total_witness :
  exists ra, allCitiesHandler String.compare (Some TwoStates.snapshot) = Ok ra
    /\ ra.(ac_totalCities) = 2%nat /\ (length ra.(ac_cities) <= 2)%nat.
Proof.
  destruct (allCitiesHandler String.compare (Some TwoStates.snapshot)) as [ra|] eqn:E;
    [| vm_compute in E; discriminate E].
  exists ra. split; [reflexivity |].
  destruct (all_cities_total _ _ _ E) as (rc & Hc & Ht & Hle & _).
  assert (H2 : ac_totalCities ra = 2%nat)
    by (revert E; vm_compute; intros [= <-]; reflexivity).
  split; [exact H2 |]. rewrite <- H2. exact Hle.
Defined.

(** *** What the index holds *)

Section SetFacts.
Context {V : Type} (P : string -> V -> Prop).

Lemma In_set k v k' v' (m : list (string * V)) :
  In (k', v') (JsMap.set k v m) -> (k' = k /\ v' = v) \/ In (k', v') m.
Proof.
  induction m as [|[k0 v0] m IH]; simpl.
  - intros [[= <- <-] | []]. by left.
  - destruct (Js.seqb k k0) eqn:E; simpl.
    + apply seqb_eq in E. subst k0. intros [[= <- <-] | H]; [by left | right; by right].
    + intros [H | H]; [right; by left |]. destruct (IH H) as [? | ?]; [by left |].
      right. by right.
Qed.

Lemma set_forall_In k v (m : list (string * V)) :
  (forall k' v', In (k', v') m -> P k' v') -> P k v ->
  forall k' v', In (k', v') (JsMap.set k v m) -> P k' v'.
Proof.
  intros Hall Hnew k' v' H. apply In_set in H as [[-> ->] | H]; [done | by apply Hall].
Qed.

Lemma default_get_In k d (m : list (string * V)) :
  (forall k' v', In (k', v') m -> P k' v') -> P k d ->
  P k (default d (JsMap.get k m)).
Proof.
  intros Hall Hd. destruct (JsMap.get k m) as [v|] eqn:E; simpl; [| done].
  apply Hall. by apply get_In.
Qed.
End SetFacts.

Lemma pushRegionToFirst_ids id region cs :
  map cropId (pushRegionToFirst id region cs) = map cropId cs.
Proof.
  induction cs as [|c cs IH]; simpl; [done |].
  destruct (cropId c =? id)%nat; simpl; [done | by rewrite IH].
Qed.

Lemma pushRegionToFirst_In id region cs c' :
  In c' (pushRegionToFirst id region cs) ->
  exists c, In c cs /\ c'.(demandQuantity) = c.(demandQuantity)
    /\ (c'.(regionalSuitability) = c.(regionalSuitability)
        \/ c'.(regionalSuitability) = c.(regionalSuitability) ++ [region]).
Proof.
  induction cs as [|c cs IH]; simpl; [done |].
  destruct (cropId c =? id)%nat; simpl.
  - intros [Heq | H].
    + subst c'. exists c. split; [by left | split; [done | by right]].
    + exists c'. split; [by right | split; [done | by left]].
  - intros [Heq | H].
    + subst c'. exists c. split; [by left | split; [done | by left]].
    + destruct (IH H) as (c0 & H0 & Hd & Hr). exists c0. split; [by right | done].
Qed.

Lemma cropsIndexed_visit cityName stateName (crop : Crop) (region : RegionFact) cs :
  region.(district) = cityName -> region.(r_state) = stateName ->
  cropsIndexed cityName stateName cs ->
  cropsIndexed cityName stateName
    (if ltQc 0 crop.(demandQuantity) then
       match find (fun c => (c.(cropId) =? crop.(cropId))%nat) cs with
       | None =>
           cs ++ [mkCrop crop.(cropId) crop.(cropName) crop.(scientificName)
                    crop.(categoryId) crop.(demandQuantity) [region]]
       | Some ec =>
           if existsb (fun r => Js.seqb r.(district) region.(district)
                                && Js.seqb r.(r_state) region.(r_state))
                      ec.(regionalSuitability)
           then cs
           else pushRegionToFirst crop.(cropId) region cs
       end
     else cs).
Proof.
  intros Hd Hs [Hnd Hall].
  destruct (ltQc 0 (demandQuantity crop)) eqn:Epos; [| by split].
  apply bool_decide_eq_true in Epos.
  destruct (find _ cs) as [ec|] eqn:Ef.
  - destruct (existsb _ (regionalSuitability ec)); [by split |].
    split; [by rewrite pushRegionToFirst_ids |].
    intros c' Hc'. apply pushRegionToFirst_In in Hc' as (c & Hc & Hdq & Hr).
    destruct (Hall c Hc) as (Hp & Hne & Hreg). rewrite Hdq.
    destruct Hr as [-> | ->]; [done |]. split_and!; [done | by destruct (regionalSuitability c) |].
    intros r Hr. apply in_app_iff in Hr as [Hr | [<- | []]]; [by apply Hreg | done].
  - split.
    + rewrite map_app. apply list.NoDup_app. split_and!; [done | | apply NoDup_singleton].
      intros id Hid Hid'. apply list_elem_of_singleton in Hid'. simpl in Hid'. subst id.
      apply list_elem_of_In, in_map_iff in Hid as (c & Hc & Hin).
      pose proof (find_none _ _ Ef c Hin) as Hn. simpl in Hn.
      apply Nat.eqb_neq in Hn. done.
    + intros c Hc. apply in_app_iff in Hc as [Hc | [<- | []]]; [by apply Hall |].
      simpl. split_and!; [done | done |]. intros r [<- | []]. done.
Qed.

Lemma citiesIndexed_visitRegion category crop m region :
  citiesIndexed m -> citiesIndexed (visitRegion category crop m region).
Proof.
  intros Hm. unfold visitRegion. destruct (isEmpty (district region)); [done |].
  set (cityName := district region). set (stateName := r_state region).
  set (cityData := default (mkCityData cityName []) (JsMap.get cityName m)).
  set (sd := default (mkCityStateData stateName [])
               (JsMap.get stateName (cyd_states cityData))).
  set (cc := default (mkCityCategoryData (name category) [])
               (JsMap.get (name category) (csd_categories sd))).
  assert (Hcity : cityIndexed cityName cityData).
  { subst cityData. apply (default_get_In cityIndexed); [exact Hm |].
    split_and!; [done | apply NoDup_nil_2 | done]. }
  destruct Hcity as (Hcn & Hsnd & Hsall).
  assert (Hstate : stateIndexed cityName stateName sd).
  { subst sd. apply (default_get_In (stateIndexed cityName)); [exact Hsall |].
    split_and!; [done | apply NoDup_nil_2 | done]. }
  destruct Hstate as (Hsn & Hcnd & Hcall).
  assert (Hcat : categoryIndexed cityName stateName (name category) cc).
  { subst cc. apply (default_get_In (categoryIndexed cityName stateName));
      [exact Hcall |]. split; [done |]. split; [apply NoDup_nil_2 | done]. }
  destruct Hcat as (Hccn & Hcrops).
  unfold citiesIndexed. apply set_forall_In; [exact Hm |].
  split_and!; [done | by apply NoDup_keys_set |].
  apply set_forall_In; [exact Hsall |].
  split_and!; [done | by apply NoDup_keys_set |].
  apply set_forall_In; [exact Hcall |].
  split; [done |]. cbn [ccd_crops]. by apply cropsIndexed_visit.
Qed.

Lemma fold_left_preserves {S A} (P : S -> Prop) (f : S -> A -> S) (l : list A) :
  (forall s x, P s -> P (f s x)) -> forall s, P s -> P (fold_left f l s).
Proof.
  intros H. induction l as [|x l IH]; intros s Hs; simpl; [done |].
  apply IH. by apply H.
Qed.

Lemma citiesIndexed_build demandData : citiesIndexed (buildCitiesMap demandData).
Proof.
  unfold buildCitiesMap. apply fold_left_preserves; [| done].
  intros m se Hm. apply fold_left_preserves; [| done].
  intros m' cat Hm'. apply fold_left_preserves; [| done].
  intros m'' crop Hm''. apply fold_left_preserves; [| done].
  intros m3 region Hm3. by apply citiesIndexed_visitRegion.
Qed.

Lemma filter_map_sublist {A B} (f : A -> B) (p : A -> bool) (l : list A) :
  sublist (map f (List.filter p l)) (map f l).
Proof.
  induction l as [|a l IH]; simpl; [constructor |].
  destruct (p a); simpl; by constructor.
Qed.

Lemma cityCategoryEntry_Some kv cat :
  cityCategoryEntry kv = Some cat ->
  cat.(cc_name) = kv.1
  /\ cat.(cc_crops) = List.filter (fun crop => ltQc 0 crop.(demandQuantity)) kv.2.(ccd_crops)
  /\ cat.(cc_count) = length cat.(cc_crops)
  /\ (0 < cat.(cc_count))%nat
  /\ cat.(cc_totalDemand) = cropsDemand cat.(cc_crops).
Proof.
  unfold cityCategoryEntry.
  destruct (List.filter _ (ccd_crops kv.2)) as [|c l] eqn:E; [done |].
  cbn [length Nat.ltb Nat.leb]. intros [= <-].
  cbn [cc_name cc_crops cc_count cc_totalDemand length].
  split_and!; try done; try lia.
  rewrite sumDemand_cropsDemand. unfold cropsDemand, sumQc. simpl. ring.
Qed.

Lemma cityStateEntry_Some kv st :
  cityStateEntry kv = Some st ->
  st.(cs_state) = kv.1
  /\ st.(cs_categories) = omap cityCategoryEntry kv.2.(csd_categories)
  /\ st.(cs_categories) <> []
  /\ st.(cs_summary).(g_totalCategories) = length st.(cs_categories)
  /\ st.(cs_summary).(g_totalCrops) = sum_list (map cc_count st.(cs_categories))
  /\ st.(cs_summary).(g_totalDemand) = sumQc (map cc_totalDemand st.(cs_categories))
  /\ st.(cs_summary).(g_unit) = "tons per week".
Proof.
  unfold cityStateEntry.
  destruct (omap cityCategoryEntry (csd_categories kv.2)) as [|c l] eqn:E; [done |].
  cbn [length Nat.ltb Nat.leb]. intros [= <-].
  cbn [cs_state cs_categories cs_summary g_totalCategories g_totalCrops g_totalDemand
       g_unit].
  split_and!; try done.
  - rewrite fold_left_plus_nat. reflexivity.
  - rewrite fold_left_plus_Qc, Qcplus_0_l. reflexivity.
Qed.

(** X19 -- the crops of the index.  In a 200 answer of the full index,
    every city has a state, every state a category, every category a
    crop; state names are distinct within a city and category names
    within a state; within a category the crop ids are distinct; every
    crop has positive demand and at least one region fact, and all its
    facts are facts of that city recorded under that state. *)
Theorem city_index_crops (localeCompare : string -> string -> comparison)
    (demandData : option (list StateEntry)) (r : AllCities) (e : CityEntry) :
  allCitiesHandler localeCompare demandData = Ok r -> In e r.(ac_cities) ->
  e.(ce_city) <> "" /\ e.(ce_states) <> []
  /\ NoDup (map cs_state e.(ce_states))
  /\ forall st, In st e.(ce_states) ->
       st.(cs_categories) <> []
       /\ NoDup (map cc_name st.(cs_categories))
       /\ forall cat, In cat st.(cs_categories) ->
            cat.(cc_count) = length cat.(cc_crops) /\ (0 < cat.(cc_count))%nat
            /\ NoDup (map cropId cat.(cc_crops))
            /\ forall crop, In crop cat.(cc_crops) ->
                 (0 < crop.(demandQuantity))%Qc
                 /\ crop.(regionalSuitability) <> []
                 /\ forall region, In region crop.(regionalSuitability) ->
                      region.(district) = e.(ce_city)
                      /\ region.(r_state) = st.(cs_state).
Proof.
  unfold allCitiesHandler. destruct (dataUnavailable demandData); [done |].
  intros [= <-]. cbn [ac_cities]. intros He.
  apply (Permutation_in _ (sortBy_Permutation _ _)) in He.
  apply list_elem_of_In, list_elem_of_omap in He as ([city cd] & Hkv & He).
  apply list_elem_of_In in Hkv.
  destruct (citiesIndexed_build (default [] demandData) city cd Hkv)
    as (_ & Hsnd & Hsall).
  assert (Hcity : city <> "").
  { intros ->.
    assert (In "" (collectDistricts (default [] demandData))) as Hin.
    { rewrite <- keys_buildCitiesMap. unfold JsMap.keys. apply in_map_iff.
      by exists ("", cd). }
    rewrite collectDistricts_flat in Hin. apply list_elem_of_In in Hin.
    apply (fold_setAdd_truthy _ [] (NoDup_nil_2)) in Hin as [Hin | [Hne _]];
      [by apply not_elem_of_nil in Hin | done]. }
  pose proof He as He'. apply cityEntry_Some in He' as (Hc & Hst & _). simpl in Hc, Hst.
  rewrite Hc, Hst. split_and!.
  - done.
  - unfold cityEntry in He. simpl in He.
    destruct (omap cityStateEntry (cyd_states cd)); [done | done].
  - apply (sublist_NoDup _ (JsMap.keys (cyd_states cd))); [done |].
    apply omap_sublist. intros kv st H. by apply cityStateEntry_Some in H as (? & _).
  - intros st Hin. apply list_elem_of_In, list_elem_of_omap in Hin as ([sn sd] & Hsd & Hs).
    apply list_elem_of_In in Hsd.
    destruct (Hsall sn sd Hsd) as (_ & Hcnd & Hcall).
    apply cityStateEntry_Some in Hs as (Hsn & Hcats & Hne & _). simpl in Hsn, Hcats.
    rewrite Hsn. split_and!; [done | |].
    + rewrite Hcats. apply (sublist_NoDup _ (JsMap.keys (csd_categories sd))); [done |].
      apply omap_sublist. intros kv cat H.
      by apply cityCategoryEntry_Some in H as (? & _).
    + intros cat Hcat. rewrite Hcats in Hcat.
      apply list_elem_of_In, list_elem_of_omap in Hcat as ([cn cc] & Hcc & Hc').
      apply list_elem_of_In in Hcc.
      destruct (Hcall cn cc Hcc) as (_ & Hnd & Hall).
      apply cityCategoryEntry_Some in Hc' as (_ & Hcrops & Hcount & Hpos & _).
      simpl in Hcrops. split_and!; [done | done | |].
      * rewrite Hcrops. apply (sublist_NoDup _ (map cropId (ccd_crops cc))); [done |].
        apply filter_map_sublist.
      * intros crop Hcrop. rewrite Hcrops in Hcrop. apply filter_In in Hcrop as [Hcrop _].
        by apply Hall.
Qed.

Lemma city_index_crops_witness :
  TwoStates.bangalore.(ce_city) = "Bangalore"
  /\ map cs_state TwoStates.bangalore.(ce_states) = ["Karnataka"; "Kerala"]
  /\ NoDup (map cs_state TwoStates.bangalore.(ce_states)).
Proof.
  split; [vm_compute; reflexivity |]. split; [vm_compute; reflexivity |].
  destruct (allCitiesHandler String.compare (Some TwoStates.snapshot)) as [r|] eqn:E;
    [| vm_compute in E; discriminate E].
  destruct (city_index_crops String.compare (Some TwoStates.snapshot) r
              TwoStates.bangalore E) as (_ & _ & Hnd & _).
  - unfold TwoStates.bangalore, TwoStates.index. rewrite E.
    assert (Hlen : (0 < length (ac_cities r))%nat).
    { revert E. vm_compute. intros [= <-]. simpl. lia. }
    apply nth_In. exact Hlen.
  - exact Hnd.
Defined.



(** X21 -- order of the index.  Whenever the comparison of the host is
    antisymmetric, the city entries come in ascending order of their
    names; whatever it is, no two entries have the same name. *)
Theorem city_index_sorted (localeCompare : string -> string -> comparison)
    (demandData : option (list StateEntry)) (r : AllCities) :
  (forall a b, localeCompare a b = CompOpp (localeCompare b a)) ->
  allCitiesHandler localeCompare demandData = Ok r ->
  ascending (fun a b => localeCompare a.(ce_city) b.(ce_city)) r.(ac_cities)
  /\ NoDup (map ce_city r.(ac_cities)).
Proof.
  intros Hanti. unfold allCitiesHandler.
  destruct (dataUnavailable demandData); [done |]. intros [= <-]. cbn [ac_cities].
  split.
  - apply sortBy_ascending. intros a b. apply Hanti.
  - rewrite sortBy_Permutation.
    apply (sublist_NoDup _ (JsMap.keys (buildCitiesMap (default [] demandData)))).
    + rewrite keys_buildCitiesMap, collectDistricts_flat.
      by destruct (fold_setAdd_truthy (allDistricts (default [] demandData)) []
                     (NoDup_nil_2)) as [H _].
    + apply omap_sublist. intros kv e H. by apply cityEntry_Some in H as (? & _).
Qed.

Lemma city_index_sorted_witness :
  map ce_city TwoStates.index = ["Bangalore"; "Mysore"]
  /\ NoDup (map ce_city TwoStates.index).
Proof.
  split; [vm_compute; reflexivity |].
  destruct (allCitiesHandler String.compare (Some TwoStates.snapshot)) as [r|] eqn:E;
    [| vm_compute in E; discriminate E].
  destruct (city_index_sorted String.compare (Some TwoStates.snapshot) r) as [_ Hnd].
  - apply String.compare_antisym.
  - exact E.
  - unfold TwoStates.index. rewrite E. exact Hnd.
Defined.

(** ** From the rows to the list of cities *)

Lemma firstSeen_nil_iff l : firstSeen l = [] <-> l = [].
Proof.
  split; [| by intros ->]. destruct l as [|x l]; [done |]. intros H. exfalso.
  destruct (fold_setAdd (fun y : string => y) (x :: l) [] (NoDup_nil_2)) as [_ Hel].
  assert (x ∈ firstSeen (x :: l)) as Hx.
  { apply Hel. right. rewrite map_id. apply list_elem_of_here. }
  rewrite H in Hx. by apply not_elem_of_nil in Hx.
Qed.

Lemma aggregate_nil_iff clock rows :
  aggregate clock rows = [] <-> acceptedRecords rows = [].
Proof.
  pose proof (aggregate_states clock rows) as Hs. split.
  - intros H. rewrite H in Hs. symmetry in Hs.
    apply (proj1 (firstSeen_nil_iff _)) in Hs. by apply map_eq_nil in Hs.
  - intros H. rewrite H in Hs. by apply map_eq_nil in Hs.
Qed.

Lemma aggregate_districts clock rows d :
  In d (allDistricts (aggregate clock rows))
  <-> exists r, In r (acceptedRecords rows) /\ r.(c_district) = d.
Proof.
  rewrite In_allDistricts. split.
  - intros (se & cat & crop & region & Hse & Hcat & Hcrop & Hr & <-).
    destruct (aggregate_crop_at _ _ _ _ _ Hse Hcat Hcrop) as [_ Hat].
    set (g := (state se, name cat, cropKeyOf (cropName crop))) in *.
    assert (In region (regionsAt (processRows rows emptyBuilder) g)) as Hin
      by (unfold regionsAt; by rewrite Hat).
    apply regionsAt_processRows in Hin; [| apply factsScoped_empty].
    destruct Hin as [Hin | (r & Hrec & ->)]; [done |].
    exists r. split; [| done]. unfold recordsOf in Hrec. by apply filter_In in Hrec as [? _].
  - intros (r & Hr & <-).
    assert (Hrec : In r (recordsOf (groupOf r) rows)).
    { unfold recordsOf. apply filter_In. split; [done | by apply bool_decide_eq_true]. }
    assert (is_Some (cropAt (processRows rows emptyBuilder) (groupOf r))) as [crop Hat].
    { apply cropAt_processRows_Some. right. intros Hnil. by rewrite Hnil in Hrec. }
    assert (Hvalid : In (groupOf r).1.2 VALID_CATEGORIES).
    { apply recordsOf_accepted in Hrec as (_ & row & _ & Hn).
      by apply normalize_valid in Hn as (? & _). }
    destruct (crop_at_snapshot clock _ _ crop
                (builderKeyed_processRows rows _ builderKeyed_empty) Hvalid Hat)
      as (se & cat & H1 & _ & H3 & _ & H5 & _).
    exists se, cat, crop, (factOf r). split_and!; try done.
    assert (In (factOf r) (regionsAt (processRows rows emptyBuilder) (groupOf r))) as Hin.
    { apply regionsAt_processRows; [apply factsScoped_empty |]. right. by exists r. }
    unfold regionsAt in Hin. by rewrite Hat in Hin.
Qed.

(** X22 -- from the rows to the cities.  Served from the snapshot of a
    run, the list of cities is exactly the set of non-empty districts of
    the accepted rows; and a run that accepts no row leaves an empty
    snapshot, which the server answers with 503. *)
Theorem pipeline_cities (clock : nat -> string) (rows : list (Row * string)) :
  (acceptedRecords rows = [] <->
   citiesHandler (Some (aggregate clock rows)) = dataNotAvailable)
  /\ forall r, citiesHandler (Some (aggregate clock rows)) = Ok r ->
       forall d, In d r.(cl_cities)
         <-> d <> "" /\ exists rec, In rec (acceptedRecords rows) /\ rec.(c_district) = d.
Proof.
  split.
  - rewrite <- (aggregate_nil_iff clock). unfold citiesHandler.
    destruct (aggregate clock rows) as [|se l]; simpl; [done |].
    split; [done | done].
  - unfold citiesHandler.
    destruct (dataUnavailable (Some (aggregate clock rows))); [done |].
    intros r [= <-] d. cbn [cl_cities default].
    rewrite <- aggregate_districts, <- !list_elem_of_In, sortBy_Permutation.
    rewrite collectDistricts_flat.
    destruct (fold_setAdd_truthy (allDistricts (aggregate clock rows)) [] (NoDup_nil_2))
      as [_ Hel].
    rewrite Hel. split; [| by right].
    intros [H | H]; [by apply not_elem_of_nil in H | done].
Qed.

Example pipeline_cities_example :
  citiesHandler (Some (aggregate Scenario.clock
                         [(Scenario.row "Karnataka" "Dairy" "Hubli" "3" "", "Milk")]))
  = dataNotAvailable
  /\ (fun x => match x with Ok r => r.(cl_cities) | Failure _ _ _ => [] end)
       (citiesHandler (Some Scenario.snapshot))
     = ["Bangalore"; "Mysore"].
Proof. split; vm_compute; reflexivity. Qed.
